(** * Scene reconciliation loop of [index.js]

    A shallow embedding of the quick-start example: the three provider
    operations ([runSearchRequest], [getSceneStatus], [publishScene]), the
    reconciler ([statusCallback], [handleSceneStatus], [handleSearchResult])
    and the module-level slot [latestImage].

    The program is callback driven.  Every [request(...)] call registers a
    continuation which Node runs when the HTTP exchange is over, and every
    [setTimeout] registers a continuation which runs when the timer expires.
    The embedding keeps the registered continuations as data in the state
    (defunctionalised closures) and gives one transition per event of the
    event loop. *)

From Stdlib Require Import ZArith List String Ascii Bool Lia.
Import ListNotations.
Local Open Scope string_scope.

(** ** JavaScript values that reach the reconciler *)

(** The values that flow through the callbacks: [undefined] (the initial
    content of [latestImage]), [null], strings, and the error object that the
    HTTP library hands to a callback on a network failure. *)
Inductive value : Type :=
| VUndefined
| VNull
| VStr (s : string)
| VErr (msg : string).

(** Truthiness, as tested by [if (err)] and by [err || ...]. *)
Definition truthy (v : value) : bool :=
  match v with
  | VUndefined | VNull => false
  | VStr s => negb (s =? "")
  | VErr _ => true
  end.

(** [a || b] *)
Definition js_or (a b : value) : value := if truthy a then a else b.

(** String conversion performed by [+] with a string operand. *)
Definition to_string (v : value) : string :=
  match v with
  | VUndefined => "undefined"
  | VNull => "null"
  | VStr s => s
  | VErr msg => "Error: " ++ msg
  end.

(** [v === 'literal'] *)
Definition strict_eq_str (v : value) (lit : string) : bool :=
  match v with
  | VStr s => s =? lit
  | _ => false
  end.

(** [String.prototype.trim] on the ASCII white space characters. *)
Definition is_space (a : ascii) : bool :=
  let n := nat_of_ascii a in
  (Nat.leb 9 n && Nat.leb n 13) || Nat.eqb n 32.

Fixpoint ltrim (s : string) : string :=
  match s with
  | EmptyString => EmptyString
  | String a rest => if is_space a then ltrim rest else s
  end.

Fixpoint rtrim (s : string) : string :=
  match s with
  | EmptyString => EmptyString
  | String a rest =>
      match rtrim rest with
      | EmptyString => if is_space a then EmptyString else String a EmptyString
      | r => String a r
      end
  end.

Definition trim (s : string) : string := rtrim (ltrim s).

(** ** Exceptions and results *)

(** The only exception the modelled code can raise: reading property [prop]
    of [undefined]. *)
Inductive exn : Type :=
| TypeError (prop : string).

Inductive result (A : Type) : Type :=
| Ok (a : A)
| Throw (e : exn).
Arguments Ok {A} a.
Arguments Throw {A} e.

Definition bind {A B : Type} (r : result A) (k : A -> result B) : result B :=
  match r with
  | Ok a => k a
  | Throw e => Throw e
  end.

Definition result_map {A B : Type} (f : A -> B) (r : result A) : result B :=
  bind r (fun a => Ok (f a)).

Notation "x <- c ;; k" := (bind c (fun x => k))
  (at level 61, c at next level, right associativity).

(** ** Provider responses *)

(** What the HTTP library passes to a [function (err, res, body)]: either an
    error object and no response, or a response with a status code and a
    body.  Bodies are taken already parsed, with the shape of the provider
    API. *)
Inductive outcome (B : Type) : Type :=
| NetworkFailure (e : string)
| Response (statusCode : Z) (body : B).
Arguments NetworkFailure {B} e.
Arguments Response {B} statusCode body.

(** The test [err || res.statusCode !== 200] at the head of each of the three
    callbacks. *)
Definition failed {B : Type} (o : outcome B) : bool :=
  match o with
  | NetworkFailure _ => true
  | Response statusCode _ => negb (statusCode =? 200)%Z
  end.

(** [/search] : [{ results: [{ sceneID }, ...] }] *)
Record search_hit : Type := { hit_sceneID : string }.
Record search_data : Type := { search_results : list search_hit }.

(** [/scenes] : [{ count, results: [{ process_method: { code }, ready, map_id }, ...] }] *)
Record process_method_t : Type := { code : string }.
Record scene : Type := {
  process_method : process_method_t;
  ready : bool;
  map_id : value
}.
Record scenes_data : Type := {
  count : Z;
  results : list scene
}.

(** ** Program state *)

(** The multipart form posted to [/publish]. *)
Record formData : Type := {
  satellite : string;
  form_sceneID : value;
  form_email : string;
  process : string
}.

(** Continuations passed to [getSceneStatus]: the top-level [statusCallback],
    or the anonymous function inside [handleSearchResult], which closes over
    the [sceneID] of the search. *)
Inductive status_callback : Type :=
| StatusCallback
| SearchResultInner (sceneID : value).

(** Continuations passed to [runSearchRequest]. *)
Inductive search_callback : Type :=
| HandleSearchResult.

(** An HTTP request in flight, with the continuation waiting for it. *)
Inductive request : Type :=
| ReqSearch (url : string) (cb : search_callback)
| ReqScenes (url : string) (sceneID : value) (cb : status_callback)
| ReqPublish (url : string) (form : formData).

(** A timer armed by [setTimeout]: every timer of the program runs
    [getSceneStatus(sceneID, statusCallback)]. *)
Record timer : Type := {
  timer_sceneID : value;
  timer_delay : Z
}.

Inductive log_entry : Type :=
| Info (msg : string)
| Error (args : list value).

(** The state of the process: the module-level variable [latestImage], the
    console output, the timers armed and not yet expired, and the requests
    waiting for their answer.  [sent] is the history of every request issued;
    the program does not keep it, the properties about outbound calls read
    it. *)
Record state : Type := {
  latestImage : value;
  console : list log_entry;
  timers : list timer;
  pending : list request;
  sent : list request
}.

Definition initial_state : state :=
  {| latestImage := VUndefined; console := []; timers := [];
     pending := []; sent := [] |}.

Definition set_latestImage (v : value) (st : state) : state :=
  {| latestImage := v; console := console st; timers := timers st;
     pending := pending st; sent := sent st |}.

Definition console_info (msg : string) (st : state) : state :=
  {| latestImage := latestImage st; console := console st ++ [Info msg];
     timers := timers st; pending := pending st; sent := sent st |}.

Definition console_error (args : list value) (st : state) : state :=
  {| latestImage := latestImage st; console := console st ++ [Error args];
     timers := timers st; pending := pending st; sent := sent st |}.

Definition setTimeout (sceneID : value) (delay : Z) (st : state) : state :=
  {| latestImage := latestImage st; console := console st;
     timers := timers st ++ [{| timer_sceneID := sceneID; timer_delay := delay |}];
     pending := pending st; sent := sent st |}.

(** [request(...)]: the request goes out and its continuation waits. *)
Definition issue (r : request) (st : state) : state :=
  {| latestImage := latestImage st; console := console st; timers := timers st;
     pending := pending st ++ [r]; sent := sent st ++ [r] |}.

Definition remove_nth {A : Type} (k : nat) (l : list A) : list A :=
  firstn k l ++ skipn (S k) l.

Definition complete (k : nat) (st : state) : state :=
  {| latestImage := latestImage st; console := console st; timers := timers st;
     pending := remove_nth k (pending st); sent := sent st |}.

Definition expire (k : nat) (st : state) : state :=
  {| latestImage := latestImage st; console := console st;
     timers := remove_nth k (timers st);
     pending := pending st; sent := sent st |}.

(** ** The program *)

Definition baseURL : string := "https://api.astrodigital.com/v1".
Definition searchInterval : Z := 24 * 60 * 60 * 1000.
Definition recheckInterval : Z := 10 * 60 * 1000.

Definition READY : string := "READY".
Definition REQUESTED : string := "REQUESTED".
Definition NOT_YET_REQUESTED : string := "NOT_YET_REQUESTED".

(** Arguments of a [callback(err, status, mapID, sceneID)] call. *)
Record status_args : Type := {
  arg_err : value;
  arg_status : value;
  arg_mapID : value;
  arg_sceneID : value
}.

(** ** Sample data *)

Definition sample_method : string := "trueColor".
Definition sample_email : string := "user@example.com".
Definition sample_center : string * string := ("37.7577", "-122.4376").
Definition sample_scene : value := VStr "LC80100102015050LGN00".

Definition entry (method_code : string) (is_ready : bool) (map : value) : scene :=
  {| process_method := {| code := method_code |}; ready := is_ready; map_id := map |}.

(** A listing in which the true-color product is complete. *)
Definition ready_data : scenes_data :=
  {| count := 2;
     results := [entry "ndvi" false VNull; entry "trueColor" true (VStr "abc123")] |}.

(** A listing in which the true-color product is still in the pipeline. *)
Definition requested_data : scenes_data :=
  {| count := 1; results := [entry "trueColor" false VNull] |}.

(** A listing that reports one more entry than it carries. *)
Definition short_data : scenes_data :=
  {| count := 2; results := [entry "ndvi" true (VStr "zzz")] |}.

(** A listing without any true-color entry. *)
Definition other_data : scenes_data :=
  {| count := 1; results := [entry "ndvi" true (VStr "zzz")] |}.

Section Program.

(** The settings at the top of [index.js] that the user must enter.
    [imageCenter] holds the decimal text of the two coordinates, which is all
    the program does with them. *)
Variable method : string.
Variable email : string.
Variable imageCenter : string * string.

(** *** [runSearchRequest] *)

Definition searchString : string :=
  "/search/?search=" ++
  "upperLeftCornerLatitude:[" ++ fst imageCenter ++ "+TO+1000]+AND+" ++
  "lowerRightCornerLatitude:[-1000+TO+" ++ fst imageCenter ++ "]+AND+" ++
  "lowerLeftCornerLongitude:[-1000+TO+" ++ snd imageCenter ++ "]+AND+" ++
  "upperRightCornerLongitude:[" ++ snd imageCenter ++ "+TO+1000]+AND+" ++
  "acquisitionDate:[2015-05-01+TO+2016-05-01]".

Definition runSearchRequest (callback : search_callback) (st : state) : state :=
  issue (ReqSearch (baseURL ++ searchString) callback) st.

(** The [function (err, res, body)] of [runSearchRequest]: the pair
    [(err, sceneID)] it calls [callback] with, or the exception it raises. *)
Definition search_response (o : outcome search_data) : result (value * value) :=
  match o with
  | NetworkFailure e =>
      Ok (js_or (VErr e)
                (VStr "Looks like we were unable to find any matches for your search."),
          VNull)
  | Response statusCode data =>
      if negb (statusCode =? 200)%Z then
        Ok (js_or VNull
                  (VStr "Looks like we were unable to find any matches for your search."),
            VNull)
      else
        match nth_error (search_results data) 0 with
        | Some hit => Ok (VNull, VStr (trim (hit_sceneID hit)))
        | None => Throw (TypeError "sceneID")
        end
  end.

(** *** [getSceneStatus] *)

Definition getSceneStatus (sceneID : value) (callback : status_callback)
    (st : state) : state :=
  issue (ReqScenes (baseURL ++ "/scenes?sceneID=" ++ to_string sceneID)
                   sceneID callback) st.

(** [scene.process_method.code === method] *)
Definition matches_method (s : scene) : bool :=
  code (process_method s) =? method.

(** The [for] loop of [getSceneStatus], entered with index [i] and [n]
    iterations left before [i < numberOfScenes] fails. *)
Fixpoint scenes_loop (n i : nat) (data : scenes_data) (sceneID : value)
    : result status_args :=
  match n with
  | O =>
      Ok {| arg_err := VNull; arg_status := VStr NOT_YET_REQUESTED;
            arg_mapID := VNull; arg_sceneID := sceneID |}
  | S n' =>
      match nth_error (results data) i with
      | None => Throw (TypeError "process_method")
      | Some scene =>
          if matches_method scene then
            if ready scene then
              Ok {| arg_err := VNull; arg_status := VStr READY;
                    arg_mapID := map_id scene; arg_sceneID := sceneID |}
            else
              Ok {| arg_err := VNull; arg_status := VStr REQUESTED;
                    arg_mapID := VNull; arg_sceneID := sceneID |}
          else scenes_loop n' (S i) data sceneID
      end
  end.

(** The [function (err, res, body)] of [getSceneStatus]: the arguments it
    calls [callback] with, or the exception it raises. *)
Definition scenes_response (sceneID : value) (o : outcome scenes_data)
    : result status_args :=
  match o with
  | NetworkFailure e =>
      Ok {| arg_err := VErr e; arg_status := VNull;
            arg_mapID := VNull; arg_sceneID := VNull |}
  | Response statusCode data =>
      if negb (statusCode =? 200)%Z then
        Ok {| arg_err := VNull; arg_status := VNull;
              arg_mapID := VNull; arg_sceneID := VNull |}
      else
        let numberOfScenes := count data in
        scenes_loop (Z.to_nat numberOfScenes) 0 data sceneID
  end.

(** *** [publishScene] *)

Definition publishScene (sceneID : value) (st : state) : state :=
  let form := {| satellite := "l8"; form_sceneID := sceneID;
                 form_email := email; process := method |} in
  issue (ReqPublish (baseURL ++ "/publish") form) st.

(** The [function (err, res, body)] of [publishScene]. *)
Definition publish_response (o : outcome value) (st : state) : state :=
  match o with
  | NetworkFailure e =>
      console_error [VStr "Received a non-200 status code."; VUndefined; VErr e] st
  | Response statusCode body =>
      if negb (statusCode =? 200)%Z then
        console_error [VStr "Received a non-200 status code."; body; VNull] st
      else console_info "Image successfully queued for publishing." st
  end.

(** *** [handleSceneStatus], [statusCallback], [handleSearchResult] *)

Definition handleSceneStatus (sceneID status mapID : value) (st : state) : state :=
  let st := console_info ("Just checked on the status of " ++ to_string sceneID ++
                          " and it is " ++ to_string status ++ ".") st in
  if strict_eq_str status READY then
    set_latestImage mapID st
  else if strict_eq_str status REQUESTED then
    setTimeout sceneID recheckInterval st
  else if strict_eq_str status NOT_YET_REQUESTED then
    setTimeout sceneID recheckInterval (publishScene sceneID st)
  else
    console_error [VStr "Unhandled scene status"] st.

Definition statusCallback (a : status_args) (st : state) : state :=
  if truthy (arg_err a) then console_error [arg_err a] st
  else handleSceneStatus (arg_sceneID a) (arg_status a) (arg_mapID a) st.

(** The anonymous callback inside [handleSearchResult]; it ignores the
    fourth argument and uses the [sceneID] of its closure. *)
Definition searchResultInner (sceneID : value) (a : status_args) (st : state)
    : state :=
  if truthy (arg_err a) then console_error [arg_err a] st
  else handleSceneStatus sceneID (arg_status a) (arg_mapID a) st.

Definition handleSearchResult (err sceneID : value) (st : state) : state :=
  if truthy err then console_error [err] st
  else getSceneStatus sceneID (SearchResultInner sceneID) st.

Definition call_status_callback (cb : status_callback) : status_args -> state -> state :=
  match cb with
  | StatusCallback => statusCallback
  | SearchResultInner sceneID => searchResultInner sceneID
  end.

Definition call_search_callback (cb : search_callback) : value -> value -> state -> state :=
  match cb with
  | HandleSearchResult => handleSearchResult
  end.

(** ** The event loop *)

(** What can happen next: the [setInterval] of the driver ticks, a timer
    expires, or the provider answers one of the requests in flight.  [k] is
    the position of the timer or request concerned. *)
Inductive event : Type :=
| SearchTick
| TimerFires (k : nat)
| SearchAnswer (k : nat) (o : outcome search_data)
| ScenesAnswer (k : nat) (o : outcome scenes_data)
| PublishAnswer (k : nat) (o : outcome value).

(** One turn of the event loop.  [None]: the event cannot happen in this
    state.  [Some (Throw e)]: the continuation raised [e], which nothing
    catches. *)
Definition step (ev : event) (st : state) : option (result state) :=
  match ev with
  | SearchTick => Some (Ok (runSearchRequest HandleSearchResult st))
  | TimerFires k =>
      match nth_error (timers st) k with
      | Some t => Some (Ok (getSceneStatus (timer_sceneID t) StatusCallback (expire k st)))
      | None => None
      end
  | SearchAnswer k o =>
      match nth_error (pending st) k with
      | Some (ReqSearch _ cb) =>
          Some (args <- search_response o ;;
                Ok (call_search_callback cb (fst args) (snd args) (complete k st)))
      | _ => None
      end
  | ScenesAnswer k o =>
      match nth_error (pending st) k with
      | Some (ReqScenes _ sceneID cb) =>
          Some (args <- scenes_response sceneID o ;;
                Ok (call_status_callback cb args (complete k st)))
      | _ => None
      end
  | PublishAnswer k o =>
      match nth_error (pending st) k with
      | Some (ReqPublish _ _) => Some (Ok (publish_response o (complete k st)))
      | _ => None
      end
  end.

(** A run of the event loop; it stops at the first uncaught exception. *)
Fixpoint run (evs : list event) (st : state) : option (result state) :=
  match evs with
  | [] => Some (Ok st)
  | ev :: evs' =>
      match step ev st with
      | Some (Ok st') => run evs' st'
      | other => other
      end
  end.

(** The start of the program: [runSearchRequest(handleSearchResult)]. *)
Definition start : state := runSearchRequest HandleSearchResult initial_state.

(** *** Input verification and the page route *)

Definition pageReloadInterval : Z := 1 * 60 * 60 * 1000.

(** The test of the input verification.  [imageCenter] is an array, which is
    always truthy, so [!imageCenter] is [false]. *)
Definition inputs_missing : bool :=
  negb (truthy (VStr email)) || (email =? "") ||
  false || (fst imageCenter =? "") || (snd imageCenter =? "") ||
  negb (truthy (VStr method)) || (method =? "").

(** How the top level of the file ends: [process.exit(1)] after the
    verification, or the event loop entered with the first search under
    way. *)
Inductive boot : Type :=
| Exited (exit_code : Z) (st : state)
| Running (st : state).

Definition main : boot :=
  if inputs_missing then
    Exited 1 (console_error
                [VStr "Uh oh, you are missing some required input data"]
                initial_state)
  else Running start.

(** The context handed to the page template by [app.get('/')]. *)
Record page_context : Type := {
  ctx_sceneID : value;
  ctx_imageCenter : string * string;
  ctx_pageReloadInterval : Z
}.

Definition page_request (st : state) : page_context * state :=
  ({| ctx_sceneID := latestImage st;
      ctx_imageCenter := imageCenter;
      ctx_pageReloadInterval := pageReloadInterval |},
   console_info ("Page reload requested, latest image is " ++
                 to_string (latestImage st) ++ ".") st).


(** ** Vocabulary of the properties *)

(** The status operation in the words of the specification: select the entry
    whose processing-method code equals the configured method; it is [READY]
    with the result reference when marked complete, [REQUESTED] otherwise;
    with no such entry the status is [NOT_YET_REQUESTED]. *)
Definition spec_getStatus (entries : list scene) (sceneID : value) : status_args :=
  match find matches_method entries with
  | Some s =>
      if ready s then
        {| arg_err := VNull; arg_status := VStr READY;
           arg_mapID := map_id s; arg_sceneID := sceneID |}
      else
        {| arg_err := VNull; arg_status := VStr REQUESTED;
           arg_mapID := VNull; arg_sceneID := sceneID |}
  | None =>
      {| arg_err := VNull; arg_status := VStr NOT_YET_REQUESTED;
         arg_mapID := VNull; arg_sceneID := sceneID |}
  end.

(** A response is consistent when [count] is the number of entries listed. *)
Definition consistent (data : scenes_data) : Prop :=
  count data = Z.of_nat (List.length (results data)).

(** The response that lists exactly [entries]. *)
Definition listing (entries : list scene) : scenes_data :=
  {| count := Z.of_nat (List.length entries); results := entries |}.

(** A status check from start to end: [getSceneStatus(sceneID,
    statusCallback)] followed by the provider's answer [o]. *)
Definition status_check (sceneID : value) (o : outcome scenes_data) (st : state)
    : result state :=
  args <- scenes_response sceneID o ;;
  Ok (statusCallback args
        (complete (List.length (pending st))
                  (getSceneStatus sceneID StatusCallback st))).

(** [n] status checks in a row against the same provider answer. *)
Fixpoint repeat_checks (n : nat) (sceneID : value) (o : outcome scenes_data)
    (st : state) : result state :=
  match n with
  | O => Ok st
  | S n' => st' <- status_check sceneID o st ;; repeat_checks n' sceneID o st'
  end.

Definition is_status_check (r : request) : bool :=
  match r with
  | ReqScenes _ _ _ => true
  | _ => false
  end.

(** The status checks still to come: one per armed timer and one per status
    request in flight. *)
Definition live_checks (st : state) : nat :=
  (List.length (timers st) +
   List.length (filter is_status_check (pending st)))%nat.

(** The status checks issued so far. *)
Definition checks_sent (st : state) : list request :=
  filter is_status_check (sent st).

(** Events of the polling chains, as opposed to those of the search driver. *)
Definition is_search_event (ev : event) : bool :=
  match ev with
  | SearchTick | SearchAnswer _ _ => true
  | _ => false
  end.

Definition recheck_timer (sceneID : value) : timer :=
  {| timer_sceneID := sceneID; timer_delay := recheckInterval |}.

Definition publish_request (sceneID : value) : request :=
  ReqPublish (baseURL ++ "/publish")
    {| satellite := "l8"; form_sceneID := sceneID;
       form_email := email; process := method |}.

Definition status_request (sceneID : value) (cb : status_callback) : request :=
  ReqScenes (baseURL ++ "/scenes?sceneID=" ++ to_string sceneID) sceneID cb.

Definition checked_line (sceneID status : value) : log_entry :=
  Info ("Just checked on the status of " ++ to_string sceneID ++
        " and it is " ++ to_string status ++ ".").

(** What [handleSceneStatus] adds to the checks still to come. *)
Definition rechecks_armed (status : value) : nat :=
  if strict_eq_str status READY then 0
  else if strict_eq_str status REQUESTED then 1
  else if strict_eq_str status NOT_YET_REQUESTED then 1
  else 0.

(** The content of [latestImage] after [statusCallback] has been called with
    [a], as a function of its content before. *)
Definition slot_after (a : status_args) (before : value) : value :=
  if truthy (arg_err a) then before
  else if strict_eq_str (arg_status a) READY then arg_mapID a
  else before.

Definition no_match_message : value :=
  VStr "Looks like we were unable to find any matches for your search.".

(** The events of the first scenario: the search finds the scene, the first
    status answer has no true-color entry, the timer expires, the second
    status answer lists the true-color product as ready. *)
Definition scenario_events : list event :=
  [SearchAnswer 0 (Response 200 {| search_results := [{| hit_sceneID := "LC80100102015050LGN00 " |}] |});
   ScenesAnswer 0 (Response 200 {| count := 1; results := [entry "ndvi" true (VStr "zzz")] |});
   TimerFires 0;
   ScenesAnswer 1 (Response 200 ready_data)].

(** *** Well-formed states *)

(** A status request for scene [id] has gone out. *)
Definition checked (st : state) (id : value) : Prop :=
  exists url cb, In (ReqScenes url id cb) (sent st).

(** [P] is a property of the scene identifiers in use. *)
Definition timer_ok (P : value -> Prop) (t : timer) : Prop :=
  timer_delay t = recheckInterval /\ P (timer_sceneID t).

Definition request_ok (P : value -> Prop) (r : request) : Prop :=
  match r with
  | ReqSearch url _ => url = baseURL ++ searchString
  | ReqScenes url id cb =>
      url = baseURL ++ "/scenes?sceneID=" ++ to_string id /\
      P id /\
      match cb with
      | StatusCallback => True
      | SearchResultInner id' => id' = id
      end
  | ReqPublish url form =>
      r = publish_request (form_sceneID form) /\ P (form_sceneID form)
  end.

(** What every state of a run satisfies. *)
Definition well_formed (P : value -> Prop) (st : state) : Prop :=
  Forall (timer_ok P) (timers st) /\
  Forall (request_ok P) (pending st) /\
  Forall (request_ok P) (sent st) /\
  incl (pending st) (sent st) /\
  (forall t, In t (timers st) -> checked st (timer_sceneID t)) /\
  (forall url form, In (ReqPublish url form) (sent st) ->
                    checked st (form_sceneID form)).

(** [id] is the trimmed identifier of the first result of a successful
    search answer among [evs]. *)
Definition found (evs : list event) (id : value) : Prop :=
  exists k hit hits,
    In (SearchAnswer k (Response 200 {| search_results := hit :: hits |})) evs /\
    id = VStr (trim (hit_sceneID hit)).

(** The successful search answers among [evs] bring identifiers with [P]. *)
Definition searches_bring (P : value -> Prop) (evs : list event) : Prop :=
  forall k hit hits,
    In (SearchAnswer k (Response 200 {| search_results := hit :: hits |})) evs ->
    P (VStr (trim (hit_sceneID hit))).

(** The answers to searches among the events of a run. *)
Definition is_search_answer (ev : event) : bool :=
  match ev with
  | SearchAnswer _ _ => true
  | _ => false
  end.

(** One round of a chain whose status request is the only request in
    flight: the answer [o] arrives, then the timer it armed expires. *)
Definition polling_round (o : outcome scenes_data) : list event :=
  [ScenesAnswer 0 o; TimerFires 0].

(** The same round when the answer makes the program publish: the answer
    [po] to the publish request arrives before the timer expires. *)
Definition publishing_round (o : outcome scenes_data) (po : outcome value)
    : list event :=
  [ScenesAnswer 0 o; PublishAnswer 0 po; TimerFires 0].

Fixpoint rounds (n : nat) (round : list event) : list event :=
  match n with
  | O => []
  | S n' => round ++ rounds n' round
  end.

(** ** [getSceneStatus]: what the scan returns *)

Lemma skipn_nth_error_cons (A : Type) (l : list A) (i : nat) (x : A) :
  nth_error l i = Some x -> skipn i l = x :: skipn (S i) l.
Proof.
  revert i; induction l as [|y l IH]; intros [|i] H; simpl in *; try discriminate.
  - congruence.
  - now apply IH.
Qed.

(** While the index stays inside the array, the loop is a search for the
    first matching entry among the next [n] entries. *)
Lemma scenes_loop_in_bounds (n i : nat) (data : scenes_data) (sceneID : value) :
  (i + n <= List.length (results data))%nat ->
  scenes_loop n i data sceneID =
  Ok (spec_getStatus (firstn n (skipn i (results data))) sceneID).
Proof.
  revert i; induction n as [|n IH]; intros i Hle; simpl.
  - reflexivity.
  - destruct (nth_error (results data) i) as [s|] eqn:Hnth.
    + rewrite (skipn_nth_error_cons _ _ _ _ Hnth).
      unfold spec_getStatus; simpl.
      destruct (matches_method s); [now destruct (ready s)|].
      rewrite IH by lia. reflexivity.
    + apply nth_error_None in Hnth. lia.
Qed.

(** Once the index has left the array, the next iteration reads a property
    of [undefined]. *)
Lemma scenes_loop_out_of_bounds (n i : nat) (data : scenes_data) (sceneID : value) :
  (List.length (results data) <= i)%nat ->
  scenes_loop (S n) i data sceneID = Throw (TypeError "process_method").
Proof.
  intros Hle; simpl.
  destruct (nth_error (results data) i) eqn:Hnth; [|reflexivity].
  assert (nth_error (results data) i <> None) as Hsome by congruence.
  apply nth_error_Some in Hsome. lia.
Qed.

(** With more iterations than entries, the loop returns exactly when some
    entry from [i] on matches, and raises the exception otherwise. *)
Lemma scenes_loop_overrun (n i : nat) (data : scenes_data) (sceneID : value) :
  (i <= List.length (results data) < i + n)%nat ->
  scenes_loop n i data sceneID =
  match find matches_method (skipn i (results data)) with
  | Some _ => Ok (spec_getStatus (skipn i (results data)) sceneID)
  | None => Throw (TypeError "process_method")
  end.
Proof.
  revert i; induction n as [|n IH]; intros i Hlt.
  - lia.
  - simpl. destruct (nth_error (results data) i) as [s|] eqn:Hnth.
    + rewrite (skipn_nth_error_cons _ _ _ _ Hnth).
      unfold spec_getStatus; simpl.
      destruct (matches_method s) eqn:Hm; [now destruct (ready s)|].
      assert (i < List.length (results data))%nat
        by (apply nth_error_Some; congruence).
      rewrite IH by lia. reflexivity.
    + apply nth_error_None in Hnth.
      rewrite skipn_all2 by exact Hnth. reflexivity.
Qed.

Lemma spec_getStatus_status (entries : list scene) (sceneID : value) :
  arg_status (spec_getStatus entries sceneID) = VStr READY \/
  arg_status (spec_getStatus entries sceneID) = VStr REQUESTED \/
  arg_status (spec_getStatus entries sceneID) = VStr NOT_YET_REQUESTED.
Proof.
  unfold spec_getStatus.
  destruct (find matches_method entries) as [s|]; [destruct (ready s)|]; simpl; auto.
Qed.

Lemma matches_method_eq (s : scene) :
  matches_method s = true <-> code (process_method s) = method.
Proof. unfold matches_method. apply String.eqb_eq. Qed.

Lemma matches_method_neq (s : scene) :
  matches_method s = false <-> code (process_method s) <> method.
Proof. unfold matches_method. apply String.eqb_neq. Qed.

Lemma scenes_response_consistent (data : scenes_data) (sceneID : value) :
  consistent data ->
  scenes_response sceneID (Response 200 data) =
  Ok (spec_getStatus (results data) sceneID).
Proof.
  unfold consistent; intros Hc; simpl.
  rewrite scenes_loop_in_bounds by (simpl; lia).
  rewrite Hc, Nat2Z.id. simpl. rewrite firstn_all. reflexivity.
Qed.

(** C1. For every provider response to a status check, listing any
    entries whatever, [getSceneStatus] calls back without an error and with
    exactly one of the three statuses, decided by the entry selected for the
    configured method (the first one whose code equals it): [READY] with
    that entry's [map_id] when it is marked ready, [REQUESTED] when it is
    not, and [NOT_YET_REQUESTED] exactly when no entry carries the
    configured method. *)
Theorem getSceneStatus_three_statuses (entries : list scene) (sceneID : value) :
  exists a : status_args,
    scenes_response sceneID (Response 200 (listing entries)) = Ok a /\
    a = spec_getStatus entries sceneID /\
    arg_err a = VNull /\
    arg_sceneID a = sceneID /\
    (arg_status a = VStr READY \/
     arg_status a = VStr REQUESTED \/
     arg_status a = VStr NOT_YET_REQUESTED) /\
    (arg_status a = VStr READY ->
     exists s, In s entries /\ code (process_method s) = method /\
               ready s = true /\ arg_mapID a = map_id s) /\
    (arg_status a = VStr REQUESTED ->
     exists s, In s entries /\ code (process_method s) = method /\
               ready s = false) /\
    (arg_status a = VStr NOT_YET_REQUESTED <->
     forall s, In s entries -> code (process_method s) <> method).
Proof.
  exists (spec_getStatus entries sceneID).
  split; [now apply (scenes_response_consistent (listing entries))|].
  split; [reflexivity|].
  unfold spec_getStatus.
  destruct (find matches_method entries) as [s|] eqn:Hfind.
  - apply find_some in Hfind as [Hin Hm]. apply matches_method_eq in Hm.
    destruct (ready s) eqn:Hr; simpl;
      (repeat split; auto; try discriminate;
       try (intros _; exists s; now auto)).
    + intros Hall. now elim (Hall s Hin).
    + intros Hall. now elim (Hall s Hin).
  - simpl. repeat split; auto; try discriminate.
    intros _ s Hin. apply matches_method_neq.
    exact (find_none _ _ Hfind s Hin).
Qed.

(** X12. When at most one entry carries the configured method, "the entry"
    is unambiguous: any such entry decides the status. *)
Lemma getSceneStatus_unique_entry (data : scenes_data) (sceneID : value) (s : scene) :
  consistent data ->
  (forall s1 s2, In s1 (results data) -> In s2 (results data) ->
     code (process_method s1) = method -> code (process_method s2) = method ->
     s1 = s2) ->
  In s (results data) -> code (process_method s) = method ->
  scenes_response sceneID (Response 200 data) =
  Ok (if ready s then
        {| arg_err := VNull; arg_status := VStr READY;
           arg_mapID := map_id s; arg_sceneID := sceneID |}
      else
        {| arg_err := VNull; arg_status := VStr REQUESTED;
           arg_mapID := VNull; arg_sceneID := sceneID |}).
Proof.
  intros Hc Huniq Hin Hm.
  rewrite scenes_response_consistent by exact Hc.
  unfold spec_getStatus.
  destruct (find matches_method (results data)) as [s'|] eqn:Hfind.
  - apply find_some in Hfind as [Hin' Hm']. apply matches_method_eq in Hm'.
    now rewrite (Huniq s' s Hin' Hin Hm' Hm).
  - apply matches_method_eq in Hm.
    rewrite (find_none _ _ Hfind s Hin) in Hm. discriminate.
Qed.

(** C10. The loop bound of [getSceneStatus] is the reported [count], not the
    length of [results].  When [count] is at most the length, no access
    leaves the array and the first matching entry among the [count] entries
    scanned decides the status.  When [count] exceeds the length and no entry
    matches, the access [data.results[i]] leaves the array and the callback
    raises a [TypeError] instead of reporting a status; such responses
    exist. *)
Theorem getSceneStatus_count_is_loop_bound :
  (forall (data : scenes_data) (sceneID : value),
      (count data <= Z.of_nat (List.length (results data)))%Z ->
      scenes_response sceneID (Response 200 data) =
      Ok (spec_getStatus (firstn (Z.to_nat (count data)) (results data)) sceneID)) /\
  (forall (data : scenes_data) (sceneID : value),
      (Z.of_nat (List.length (results data)) < count data)%Z ->
      (forall s, In s (results data) -> code (process_method s) <> method) ->
      scenes_response sceneID (Response 200 data) =
      Throw (TypeError "process_method")) /\
  (exists (data : scenes_data) (sceneID : value),
      (Z.of_nat (List.length (results data)) < count data)%Z /\
      scenes_response sceneID (Response 200 data) =
      Throw (TypeError "process_method")).
Proof.
  split; [|split].
  - intros data sceneID Hle. simpl.
    rewrite scenes_loop_in_bounds by (simpl; lia).
    reflexivity.
  - intros data sceneID Hlt Hnone. simpl.
    rewrite scenes_loop_overrun by (simpl; lia). simpl.
    destruct (find matches_method (results data)) as [s|] eqn:Hfind; [|reflexivity].
    apply find_some in Hfind as [Hin Hm]. apply matches_method_eq in Hm.
    now elim (Hnone s Hin).
  - exists {| count := 1; results := [] |}, VNull. split; [simpl; lia|reflexivity].
Qed.

(** ** The reconciler *)

Lemma strict_eq_str_true (v : value) (lit : string) :
  strict_eq_str v lit = true <-> v = VStr lit.
Proof.
  destruct v; simpl; split; intros H; try discriminate.
  - apply String.eqb_eq in H. now subst.
  - injection H as ->. apply String.eqb_refl.
Qed.

Lemma strict_eq_str_false (v : value) (lit : string) :
  strict_eq_str v lit = false <-> v <> VStr lit.
Proof.
  split.
  - intros H Heq. apply strict_eq_str_true in Heq. congruence.
  - intros H. destruct (strict_eq_str v lit) eqn:E; [|reflexivity].
    apply strict_eq_str_true in E. contradiction.
Qed.

Lemma nth_error_snoc (A : Type) (l : list A) (x : A) (k : nat) :
  k = List.length l -> nth_error (l ++ [x]) k = Some x.
Proof.
  intros ->. rewrite nth_error_app2 by lia. now rewrite Nat.sub_diag.
Qed.

Lemma remove_nth_snoc (A : Type) (l : list A) (x : A) (k : nat) :
  k = List.length l -> remove_nth k (l ++ [x]) = l.
Proof.
  intros ->. unfold remove_nth.
  rewrite skipn_all2 by (rewrite length_app; simpl; lia).
  rewrite firstn_app, Nat.sub_diag, firstn_all. simpl.
  now rewrite !app_nil_r.
Qed.

(** The four branches of the [switch] in [handleSceneStatus]. *)
Lemma handleSceneStatus_READY (sceneID mapID : value) (st : state) :
  handleSceneStatus sceneID (VStr READY) mapID st =
  set_latestImage mapID
    (console_info ("Just checked on the status of " ++ to_string sceneID ++
                   " and it is READY.") st).
Proof. reflexivity. Qed.

Lemma handleSceneStatus_REQUESTED (sceneID mapID : value) (st : state) :
  handleSceneStatus sceneID (VStr REQUESTED) mapID st =
  setTimeout sceneID recheckInterval
    (console_info ("Just checked on the status of " ++ to_string sceneID ++
                   " and it is REQUESTED.") st).
Proof. reflexivity. Qed.

Lemma handleSceneStatus_NOT_YET_REQUESTED (sceneID mapID : value) (st : state) :
  handleSceneStatus sceneID (VStr NOT_YET_REQUESTED) mapID st =
  setTimeout sceneID recheckInterval
    (publishScene sceneID
       (console_info ("Just checked on the status of " ++ to_string sceneID ++
                      " and it is NOT_YET_REQUESTED.") st)).
Proof. reflexivity. Qed.

Lemma handleSceneStatus_default (sceneID status mapID : value) (st : state) :
  status <> VStr READY -> status <> VStr REQUESTED ->
  status <> VStr NOT_YET_REQUESTED ->
  handleSceneStatus sceneID status mapID st =
  console_error [VStr "Unhandled scene status"]
    (console_info ("Just checked on the status of " ++ to_string sceneID ++
                   " and it is " ++ to_string status ++ ".") st).
Proof.
  intros H1 H2 H3. unfold handleSceneStatus.
  apply strict_eq_str_false in H1, H2, H3.
  now rewrite H1, H2, H3.
Qed.

(** The slot after [handleSceneStatus], whatever the status. *)
Lemma handleSceneStatus_latestImage (sceneID status mapID : value) (st : state) :
  latestImage (handleSceneStatus sceneID status mapID st) =
  if strict_eq_str status READY then mapID else latestImage st.
Proof.
  unfold handleSceneStatus.
  destruct (strict_eq_str status READY); [reflexivity|].
  destruct (strict_eq_str status REQUESTED); [reflexivity|].
  destruct (strict_eq_str status NOT_YET_REQUESTED); reflexivity.
Qed.

(** C4. Handling a delivered status writes [latestImage] on the [READY]
    branch only, and what it writes there is the delivered [mapID]; every
    other status ([REQUESTED], [NOT_YET_REQUESTED], anything else) and the
    error branch of either callback leave [latestImage] as it was. *)
Theorem latestImage_written_only_on_READY
    (sceneID status mapID : value) (a : status_args) (st : state) :
  (status = VStr READY ->
   latestImage (handleSceneStatus sceneID status mapID st) = mapID) /\
  (status <> VStr READY ->
   latestImage (handleSceneStatus sceneID status mapID st) = latestImage st) /\
  (truthy (arg_err a) = true ->
   latestImage (statusCallback a st) = latestImage st /\
   latestImage (searchResultInner sceneID a st) = latestImage st) /\
  (truthy (arg_err a) = false ->
   latestImage (statusCallback a st) =
   latestImage (handleSceneStatus (arg_sceneID a) (arg_status a) (arg_mapID a) st)).
Proof.
  repeat split.
  - intros ->. now rewrite handleSceneStatus_latestImage.
  - intros Hne. rewrite handleSceneStatus_latestImage.
    apply strict_eq_str_false in Hne. now rewrite Hne.
  - unfold statusCallback. match goal with H : truthy _ = true |- _ => now rewrite H end.
  - unfold searchResultInner. match goal with H : truthy _ = true |- _ => now rewrite H end.
  - intros Hf. unfold statusCallback. now rewrite Hf.
Qed.

(** ** Polling chains *)

Lemma remove_nth_split (A : Type) (l1 l2 : list A) (x : A) :
  remove_nth (List.length l1) (l1 ++ x :: l2) = (l1 ++ l2)%list.
Proof.
  unfold remove_nth. induction l1 as [|y l1 IH]; simpl.
  - reflexivity.
  - f_equal. exact IH.
Qed.

Lemma filter_remove_nth (A : Type) (f : A -> bool) (l : list A) (k : nat) (x : A) :
  nth_error l k = Some x ->
  List.length (filter f l) =
  (List.length (filter f (remove_nth k l)) + (if f x then 1 else 0))%nat.
Proof.
  intros Hnth. apply nth_error_split in Hnth as (l1 & l2 & -> & <-).
  rewrite remove_nth_split, !filter_app, !length_app. simpl.
  destruct (f x); simpl; lia.
Qed.

Lemma live_checks_complete (k : nat) (r : request) (st : state) :
  nth_error (pending st) k = Some r ->
  live_checks st =
  (live_checks (complete k st) + (if is_status_check r then 1 else 0))%nat.
Proof.
  intros Hnth. unfold live_checks; simpl.
  rewrite (filter_remove_nth _ is_status_check _ _ _ Hnth). lia.
Qed.

Lemma live_checks_expire (k : nat) (t : timer) (st : state) :
  nth_error (timers st) k = Some t ->
  live_checks st = S (live_checks (expire k st)).
Proof.
  intros Hnth. unfold live_checks; simpl.
  apply nth_error_split in Hnth as (l1 & l2 & -> & <-).
  rewrite remove_nth_split, !length_app. simpl. lia.
Qed.

Lemma handleSceneStatus_live_checks (sceneID status mapID : value) (st : state) :
  live_checks (handleSceneStatus sceneID status mapID st) =
  (live_checks st + rechecks_armed status)%nat.
Proof.
  unfold handleSceneStatus, rechecks_armed, live_checks.
  destruct (strict_eq_str status READY); [simpl; lia|].
  destruct (strict_eq_str status REQUESTED);
    [simpl; rewrite length_app; simpl; lia|].
  destruct (strict_eq_str status NOT_YET_REQUESTED).
  - simpl. rewrite filter_app, !length_app. simpl. lia.
  - simpl; lia.
Qed.

Lemma handleSceneStatus_checks_sent (sceneID status mapID : value) (st : state) :
  checks_sent (handleSceneStatus sceneID status mapID st) = checks_sent st.
Proof.
  unfold handleSceneStatus, checks_sent.
  destruct (strict_eq_str status READY); [reflexivity|].
  destruct (strict_eq_str status REQUESTED); [reflexivity|].
  destruct (strict_eq_str status NOT_YET_REQUESTED); [|reflexivity].
  simpl. rewrite filter_app. simpl. now rewrite app_nil_r.
Qed.

Lemma call_status_callback_live_checks (cb : status_callback) (a : status_args)
    (st : state) :
  live_checks (call_status_callback cb a st) =
  (live_checks st +
   if truthy (arg_err a) then 0 else rechecks_armed (arg_status a))%nat.
Proof.
  destruct cb; simpl; unfold statusCallback, searchResultInner;
    destruct (truthy (arg_err a));
    try (rewrite handleSceneStatus_live_checks; reflexivity);
    unfold live_checks; simpl; lia.
Qed.

Lemma call_status_callback_checks_sent (cb : status_callback) (a : status_args)
    (st : state) :
  checks_sent (call_status_callback cb a st) = checks_sent st.
Proof.
  destruct cb; simpl; unfold statusCallback, searchResultInner;
    destruct (truthy (arg_err a));
    try (rewrite handleSceneStatus_checks_sent; reflexivity);
    reflexivity.
Qed.

Lemma step_ScenesAnswer (k : nat) (o : outcome scenes_data) (st : state)
    (url : string) (sceneID : value) (cb : status_callback) :
  nth_error (pending st) k = Some (ReqScenes url sceneID cb) ->
  step (ScenesAnswer k o) st =
  Some (args <- scenes_response sceneID o ;;
        Ok (call_status_callback cb args (complete k st))).
Proof. intros H. simpl. now rewrite H. Qed.

Lemma step_TimerFires (k : nat) (t : timer) (st : state) :
  nth_error (timers st) k = Some t ->
  step (TimerFires k) st =
  Some (Ok (getSceneStatus (timer_sceneID t) StatusCallback (expire k st))).
Proof. intros H. simpl. now rewrite H. Qed.

Lemma nth_error_filter_pos (A : Type) (f : A -> bool) (l : list A) (k : nat) (x : A) :
  nth_error l k = Some x -> f x = true -> (0 < List.length (filter f l))%nat.
Proof.
  intros Hnth Hf. rewrite (filter_remove_nth _ f _ _ _ Hnth), Hf. lia.
Qed.

(** With no status check to come, the polling events can do nothing but
    receive answers to publish requests: no status check is issued, and the
    slot keeps its value. *)
Lemma quiet_step (ev : event) (st st' : state) :
  is_search_event ev = false ->
  live_checks st = O ->
  step ev st = Some (Ok st') ->
  live_checks st' = O /\ sent st' = sent st /\ latestImage st' = latestImage st.
Proof.
  intros Hev Hlive Hstep. destruct ev as [|k|k o|k o|k o]; try discriminate.
  - simpl in Hstep.
    destruct (nth_error (timers st) k) as [t|] eqn:Hnth; [|discriminate].
    rewrite (live_checks_expire _ _ _ Hnth) in Hlive. discriminate.
  - simpl in Hstep.
    destruct (nth_error (pending st) k) as [[| |]|] eqn:Hnth; try discriminate.
    assert (0 < List.length (filter is_status_check (pending st)))%nat
      by (eapply nth_error_filter_pos; [exact Hnth|reflexivity]).
    unfold live_checks in Hlive. lia.
  - simpl in Hstep.
    destruct (nth_error (pending st) k) as [[| |]|] eqn:Hnth; try discriminate.
    injection Hstep as <-.
    rewrite (live_checks_complete _ _ _ Hnth) in Hlive. simpl in Hlive.
    unfold publish_response.
    destruct o as [e|statusCode body]; [|destruct (negb (statusCode =? 200)%Z)];
      (split; [unfold live_checks in *; simpl in *; lia|split; reflexivity]).
Qed.

Lemma quiet_run (evs : list event) (st st' : state) :
  forallb (fun ev => negb (is_search_event ev)) evs = true ->
  live_checks st = O ->
  run evs st = Some (Ok st') ->
  live_checks st' = O /\ sent st' = sent st /\ latestImage st' = latestImage st.
Proof.
  revert st; induction evs as [|ev evs IH]; intros st Hevs Hlive Hrun; simpl in *.
  - injection Hrun as <-. auto.
  - apply andb_true_iff in Hevs as [Hev Hevs]. apply negb_true_iff in Hev.
    destruct (step ev st) as [[st1|e]|] eqn:Hstep; try discriminate.
    destruct (quiet_step _ _ _ Hev Hlive Hstep) as (Hl1 & Hs1 & Hi1).
    destruct (IH _ Hevs Hl1 Hrun) as (Hl2 & Hs2 & Hi2).
    repeat split; congruence.
Qed.

Lemma scenes_loop_args (n i : nat) (data : scenes_data) (sceneID : value)
    (a : status_args) :
  scenes_loop n i data sceneID = Ok a ->
  arg_err a = VNull /\ arg_sceneID a = sceneID.
Proof.
  revert i; induction n as [|n IH]; intros i H; simpl in H.
  - injection H as <-. auto.
  - destruct (nth_error (results data) i) as [s|]; [|discriminate].
    destruct (matches_method s); [|now apply (IH (S i))].
    destruct (ready s); injection H as <-; auto.
Qed.

(** A status other than [null] comes with no error and with the scene
    identifier of the request. *)
Lemma scenes_response_status (sceneID : value) (o : outcome scenes_data)
    (a : status_args) (status : string) :
  scenes_response sceneID o = Ok a ->
  arg_status a = VStr status ->
  arg_err a = VNull /\ arg_sceneID a = sceneID.
Proof.
  intros H Hs. destruct o as [e|statusCode data]; simpl in H.
  - injection H as <-. discriminate.
  - destruct (negb (statusCode =? 200)%Z).
    + injection H as <-. discriminate.
    + eapply scenes_loop_args, H.
Qed.

(** C5. The [REQUESTED] and [NOT_YET_REQUESTED] branches arm exactly one
    timer, for [recheckInterval], and that timer performs exactly one status
    check of the same scene when it expires; the [READY] branch arms no timer
    and issues no request.  A status check answered [READY] therefore ends
    its chain: the number of checks still to come drops by one, and when it
    was the only chain no polling event ever issues another request. *)
Theorem recheck_scheduling (sceneID mapID : value) (st : state) :
  (timers (handleSceneStatus sceneID (VStr REQUESTED) mapID st) =
     (timers st ++ [recheck_timer sceneID])%list /\
   sent (handleSceneStatus sceneID (VStr REQUESTED) mapID st) = sent st) /\
  (timers (handleSceneStatus sceneID (VStr NOT_YET_REQUESTED) mapID st) =
     (timers st ++ [recheck_timer sceneID])%list /\
   sent (handleSceneStatus sceneID (VStr NOT_YET_REQUESTED) mapID st) =
     (sent st ++ [publish_request sceneID])%list) /\
  (timers (handleSceneStatus sceneID (VStr READY) mapID st) = timers st /\
   sent (handleSceneStatus sceneID (VStr READY) mapID st) = sent st /\
   pending (handleSceneStatus sceneID (VStr READY) mapID st) = pending st) /\
  (forall st1 : state,
     timers st1 = (timers st ++ [recheck_timer sceneID])%list ->
     exists st2,
       step (TimerFires (List.length (timers st))) st1 = Some (Ok st2) /\
       timers st2 = timers st /\
       sent st2 = (sent st1 ++ [status_request sceneID StatusCallback])%list) /\
  (forall (k : nat) (o : outcome scenes_data) (url : string) (id : value)
          (cb : status_callback) (a : status_args),
     nth_error (pending st) k = Some (ReqScenes url id cb) ->
     scenes_response id o = Ok a ->
     arg_status a = VStr READY ->
     exists st',
       step (ScenesAnswer k o) st = Some (Ok st') /\
       timers st' = timers st /\
       sent st' = sent st /\
       S (live_checks st') = live_checks st /\
       (live_checks st = 1%nat ->
        forall (evs : list event) (st'' : state),
          forallb (fun ev => negb (is_search_event ev)) evs = true ->
          run evs st' = Some (Ok st'') ->
          sent st'' = sent st /\ live_checks st'' = O)).
Proof.
  split; [|split; [|split; [|split]]].
  - now rewrite handleSceneStatus_REQUESTED.
  - now rewrite handleSceneStatus_NOT_YET_REQUESTED.
  - now rewrite handleSceneStatus_READY.
  - intros st1 Ht.
    assert (nth_error (timers st1) (List.length (timers st)) =
            Some (recheck_timer sceneID)) as Hnth
      by (rewrite Ht; now apply nth_error_snoc).
    rewrite (step_TimerFires _ _ _ Hnth).
    eexists; split; [reflexivity|]. simpl.
    rewrite Ht, remove_nth_snoc by reflexivity. auto.
  - intros k o url id cb a Hnth Hresp Hready.
    rewrite (step_ScenesAnswer _ o _ _ _ _ Hnth), Hresp. simpl.
    destruct (scenes_response_status _ _ _ _ Hresp Hready) as [Herr Hid].
    set (st' := call_status_callback cb a (complete k st)).
    assert (timers st' = timers st /\ sent st' = sent st) as [Ht Hs].
    { subst st'. destruct cb; simpl; unfold statusCallback, searchResultInner;
        rewrite Herr, Hready; simpl; auto. }
    assert (S (live_checks st') = live_checks st) as Hlive.
    { subst st'. rewrite call_status_callback_live_checks, Herr, Hready.
      rewrite (live_checks_complete _ _ _ Hnth). simpl.
      unfold rechecks_armed; simpl. lia. }
    exists st'.
    split; [reflexivity|]. split; [exact Ht|]. split; [exact Hs|].
    split; [exact Hlive|].
    intros Hone evs st'' Hevs Hrun.
    assert (live_checks st' = O) as Hzero by lia.
    destruct (quiet_run _ _ _ Hevs Hzero Hrun) as (Hl2 & Hs2 & _).
    split; congruence.
Qed.

(** C6. A status outside [READY], [REQUESTED], [NOT_YET_REQUESTED] is
    logged and nothing else happens: [handleSceneStatus] returns normally,
    the console gains the status line and the line [Unhandled scene status],
    no timer is armed, no request is issued and [latestImage] is untouched,
    so the chain has no next check. *)
Theorem unknown_status_stops_chain (sceneID status mapID : value) (st : state) :
  status <> VStr READY ->
  status <> VStr REQUESTED ->
  status <> VStr NOT_YET_REQUESTED ->
  handleSceneStatus sceneID status mapID st =
  {| latestImage := latestImage st;
     console := console st ++ [checked_line sceneID status;
                               Error [VStr "Unhandled scene status"]];
     timers := timers st;
     pending := pending st;
     sent := sent st |} /\
  live_checks (handleSceneStatus sceneID status mapID st) = live_checks st.
Proof.
  intros H1 H2 H3. split.
  - rewrite handleSceneStatus_default by assumption.
    unfold console_error, console_info, checked_line; simpl.
    now rewrite <- app_assoc.
  - rewrite handleSceneStatus_live_checks. unfold rechecks_armed.
    apply strict_eq_str_false in H1, H2, H3.
    rewrite H1, H2, H3. lia.
Qed.

(** C7. Round trip.  The [NOT_YET_REQUESTED] branch posts the publish
    request for the scene under the configured method and arms the re-check;
    when that re-check is answered [READY] with result reference [m],
    [latestImage] holds exactly [m]. *)
Theorem publish_then_ready_round_trip
    (sceneID mapID m : value) (data : scenes_data) (st : state) :
  scenes_response sceneID (Response 200 data) =
    Ok {| arg_err := VNull; arg_status := VStr READY;
          arg_mapID := m; arg_sceneID := sceneID |} ->
  let st1 := handleSceneStatus sceneID (VStr NOT_YET_REQUESTED) mapID st in
  sent st1 = (sent st ++ [publish_request sceneID])%list /\
  exists st2 st3,
    step (TimerFires (List.length (timers st))) st1 = Some (Ok st2) /\
    step (ScenesAnswer (S (List.length (pending st))) (Response 200 data)) st2 =
      Some (Ok st3) /\
    latestImage st3 = m.
Proof.
  intros Hresp st1. split; [reflexivity|].
  assert (nth_error (timers st1) (List.length (timers st)) =
          Some (recheck_timer sceneID)) as Hnth
    by (subst st1; rewrite handleSceneStatus_NOT_YET_REQUESTED;
        now apply nth_error_snoc).
  rewrite (step_TimerFires _ _ _ Hnth).
  set (st2 := getSceneStatus sceneID StatusCallback
                (expire (List.length (timers st)) st1)).
  assert (nth_error (pending st2) (S (List.length (pending st))) =
          Some (status_request sceneID StatusCallback)) as Hreq
    by (change (pending st2)
          with ((pending st ++ [publish_request sceneID]) ++
                [status_request sceneID StatusCallback])%list;
        apply nth_error_snoc; rewrite length_app; simpl; lia).
  exists st2. eexists. split; [reflexivity|].
  rewrite (step_ScenesAnswer _ _ _ _ _ _ Hreq), Hresp.
  split; reflexivity.
Qed.

(** C8. Whatever the outcome of the publish request, its callback only
    writes one console line (an error line when the outcome is a network
    failure or a status other than 200), raises nothing, and leaves
    [latestImage], the timers and the other requests alone; [publishScene]
    itself only posts the request and hands nothing back to its caller. *)
Theorem publish_failure_is_swallowed
    (o : outcome value) (sceneID : value) (k : nat) (st : state) :
  (exists entry : log_entry,
     publish_response o st =
       {| latestImage := latestImage st; console := console st ++ [entry];
          timers := timers st; pending := pending st; sent := sent st |} /\
     (failed o = true ->
      exists body err,
        entry = Error [VStr "Received a non-200 status code."; body; err]) /\
     (failed o = false ->
      entry = Info "Image successfully queued for publishing.")) /\
  (forall e : exn, step (PublishAnswer k o) st <> Some (Throw e)) /\
  (forall (url : string) (form : formData),
     nth_error (pending st) k = Some (ReqPublish url form) ->
     step (PublishAnswer k o) st = Some (Ok (publish_response o (complete k st)))) /\
  publishScene sceneID st =
    {| latestImage := latestImage st; console := console st;
       timers := timers st;
       pending := pending st ++ [publish_request sceneID];
       sent := sent st ++ [publish_request sceneID] |}.
Proof.
  split; [|split; [|split]].
  - destruct o as [e|statusCode body]; simpl.
    + eexists; split; [reflexivity|]. split; [eauto|discriminate].
    + destruct (negb (statusCode =? 200)%Z); simpl;
        (eexists; split; [reflexivity|]; split; [eauto|]; try discriminate; auto).
  - intros e. simpl.
    destruct (nth_error (pending st) k) as [[| |]|]; discriminate.
  - intros url form Hnth. simpl. now rewrite Hnth.
  - reflexivity.
Qed.

(** ** Idempotence of the status check *)

Lemma status_check_latestImage (sceneID : value) (o : outcome scenes_data)
    (st : state) :
  result_map latestImage (status_check sceneID o st) =
  result_map (fun a => slot_after a (latestImage st)) (scenes_response sceneID o).
Proof.
  unfold status_check, result_map.
  destruct (scenes_response sceneID o) as [a|e]; simpl; [|reflexivity].
  unfold statusCallback, slot_after.
  destruct (truthy (arg_err a)); [reflexivity|].
  now rewrite handleSceneStatus_latestImage.
Qed.

Lemma slot_after_idempotent (a : status_args) (v : value) :
  slot_after a (slot_after a v) = slot_after a v.
Proof.
  unfold slot_after. destruct (truthy (arg_err a)); [reflexivity|].
  destruct (strict_eq_str (arg_status a) READY); reflexivity.
Qed.

(** The status check as one turn of the event loop. *)
Lemma status_check_is_step (sceneID : value) (o : outcome scenes_data) (st : state) :
  step (ScenesAnswer (List.length (pending st)) o)
       (getSceneStatus sceneID StatusCallback st) =
  Some (status_check sceneID o st).
Proof.
  apply (step_ScenesAnswer _ o _ (baseURL ++ "/scenes?sceneID=" ++ to_string sceneID)
           sceneID StatusCallback).
  change (pending (getSceneStatus sceneID StatusCallback st))
    with (pending st ++ [status_request sceneID StatusCallback])%list.
  now apply nth_error_snoc.
Qed.

(** C9. Idempotence.  Against an unchanged provider answer, any number of
    status checks in a row leaves in [latestImage] what a single check
    leaves there (and raises whenever a single check raises). *)
Theorem repeated_status_checks_idempotent
    (n : nat) (sceneID : value) (o : outcome scenes_data) (st : state) :
  result_map latestImage (repeat_checks (S n) sceneID o st) =
  result_map latestImage (status_check sceneID o st).
Proof.
  revert st; induction n as [|n IH]; intros st.
  - simpl. destruct (status_check sceneID o st); reflexivity.
  - change (repeat_checks (S (S n)) sceneID o st)
      with (st' <- status_check sceneID o st ;; repeat_checks (S n) sceneID o st').
    pose proof (status_check_latestImage sceneID o st) as H1.
    destruct (status_check sceneID o st) as [st1|e] eqn:Hc; [|reflexivity].
    unfold bind at 1. rewrite IH.
    rewrite status_check_latestImage.
    destruct (scenes_response sceneID o) as [a|e]; simpl in *; [|discriminate].
    injection H1 as H1. now rewrite H1, slot_after_idempotent.
Qed.

(** ** Failures of the search and of the status check *)

(** A search answered with a status other than 200 ends the cycle with the
    no-match message on the error console; nothing else changes. *)
Lemma search_non_success (k : nat) (statusCode : Z) (data : search_data)
    (url : string) (st : state) :
  statusCode <> 200%Z ->
  nth_error (pending st) k = Some (ReqSearch url HandleSearchResult) ->
  step (SearchAnswer k (Response statusCode data)) st =
  Some (Ok (console_error [no_match_message] (complete k st))).
Proof.
  intros Hne Hnth. simpl. rewrite Hnth. simpl.
  apply Z.eqb_neq in Hne. now rewrite Hne.
Qed.

(** A search that fails on the network ends the cycle with the transport
    error on the error console; nothing else changes. *)
Lemma search_network_failure (k : nat) (e : string) (url : string) (st : state) :
  nth_error (pending st) k = Some (ReqSearch url HandleSearchResult) ->
  step (SearchAnswer k (NetworkFailure e)) st =
  Some (Ok (console_error [VErr e] (complete k st))).
Proof. intros Hnth. simpl. now rewrite Hnth. Qed.

(** A successful search with at least one result starts the status check of
    the first result's trimmed identifier. *)
Lemma search_success (k : nat) (hit : search_hit) (hits : list search_hit)
    (url : string) (st : state) :
  nth_error (pending st) k = Some (ReqSearch url HandleSearchResult) ->
  step (SearchAnswer k (Response 200 {| search_results := hit :: hits |})) st =
  Some (Ok (getSceneStatus (VStr (trim (hit_sceneID hit)))
              (SearchResultInner (VStr (trim (hit_sceneID hit))))
              (complete k st))).
Proof. intros Hnth. simpl. now rewrite Hnth. Qed.

(** A successful search with an empty result list raises: [data.results[0]]
    is [undefined]. *)
Lemma search_zero_results (k : nat) (url : string) (st : state) :
  nth_error (pending st) k = Some (ReqSearch url HandleSearchResult) ->
  step (SearchAnswer k (Response 200 {| search_results := [] |})) st =
  Some (Throw (TypeError "sceneID")).
Proof. intros Hnth. simpl. now rewrite Hnth. Qed.

(** C2, at the input where the code departs from it.  The first search of
    the program answered 200 with no results raises a [TypeError] in the
    callback of [runSearchRequest]: [handleSearchResult] is never called and
    nothing is logged.  The same search answered 404 is reported with the
    no-match message. *)
Theorem search_zero_results_raises :
  step (SearchAnswer 0 (Response 200 {| search_results := [] |})) start =
    Some (Throw (TypeError "sceneID")) /\
  step (SearchAnswer 0 (Response 404 {| search_results := [] |})) start =
    Some (Ok {| latestImage := VUndefined;
                console := [Error [no_match_message]];
                timers := []; pending := [];
                sent := [ReqSearch (baseURL ++ searchString) HandleSearchResult] |}).
Proof. split; reflexivity. Qed.

(** A status check that fails on the network is reported: the error goes to
    the error console and nothing else changes. *)
Lemma status_network_failure (k : nat) (e url : string) (sceneID : value)
    (cb : status_callback) (st : state) :
  nth_error (pending st) k = Some (ReqScenes url sceneID cb) ->
  step (ScenesAnswer k (NetworkFailure e)) st =
  Some (Ok (console_error [VErr e] (complete k st))).
Proof.
  intros Hnth. rewrite (step_ScenesAnswer _ _ _ _ _ _ Hnth). simpl.
  destruct cb; reflexivity.
Qed.

(** A status check answered with a status other than 200 calls back with
    [null] for the error and [null] for the status. *)
Lemma status_non_success_args (sceneID : value) (statusCode : Z)
    (data : scenes_data) :
  statusCode <> 200%Z ->
  scenes_response sceneID (Response statusCode data) =
  Ok {| arg_err := VNull; arg_status := VNull;
        arg_mapID := VNull; arg_sceneID := VNull |}.
Proof. intros Hne. simpl. apply Z.eqb_neq in Hne. now rewrite Hne. Qed.

(** C3, at the input where the code departs from it.  A status check
    answered 500 calls [statusCallback] with a [null] error, so the failure
    is handled as the status [null]: [handleSceneStatus] runs and takes its
    default branch. *)
Theorem status_non_success_is_not_an_error (sceneID : value) (data : scenes_data) :
  scenes_response sceneID (Response 500 data) =
    Ok {| arg_err := VNull; arg_status := VNull;
          arg_mapID := VNull; arg_sceneID := VNull |} /\
  step (ScenesAnswer 0 (Response 500 data))
       (getSceneStatus sceneID StatusCallback initial_state) =
    Some (Ok (handleSceneStatus VNull VNull VNull
                (complete 0 (getSceneStatus sceneID StatusCallback initial_state)))) /\
  console (handleSceneStatus VNull VNull VNull
             (complete 0 (getSceneStatus sceneID StatusCallback initial_state))) =
    [Info "Just checked on the status of null and it is null.";
     Error [VStr "Unhandled scene status"]].
Proof. repeat split. Qed.

(** ** Well-formedness is kept by the event loop *)

Lemma run_app (evs1 evs2 : list event) (st : state) :
  run (evs1 ++ evs2) st =
  match run evs1 st with
  | Some (Ok st1) => run evs2 st1
  | other => other
  end.
Proof.
  revert st; induction evs1 as [|ev evs1 IH]; intros st; simpl.
  - reflexivity.
  - destruct (step ev st) as [[st1|e]|]; [apply IH|reflexivity|reflexivity].
Qed.

Lemma remove_nth_incl (A : Type) (k : nat) (l : list A) :
  incl (remove_nth k l) l.
Proof.
  unfold remove_nth. intros x Hin. apply in_app_or in Hin as [Hin|Hin].
  - rewrite <- (firstn_skipn k l). apply in_or_app. now left.
  - rewrite <- (firstn_skipn (S k) l). apply in_or_app. now right.
Qed.

Lemma Forall_remove_nth (A : Type) (P : A -> Prop) (k : nat) (l : list A) :
  Forall P l -> Forall P (remove_nth k l).
Proof.
  intros H. apply Forall_forall. intros x Hin.
  rewrite Forall_forall in H. apply H. now apply (remove_nth_incl _ k).
Qed.

Lemma checked_mono (st st' : state) (id : value) :
  incl (sent st) (sent st') -> checked st id -> checked st' id.
Proof. intros Hincl (url & cb & Hin). exists url, cb. now apply Hincl. Qed.

Section WellFormed.

Variable P : value -> Prop.

(** Only the timers and the requests matter. *)
Lemma well_formed_ext (st st' : state) :
  timers st' = timers st -> pending st' = pending st -> sent st' = sent st ->
  well_formed P st -> well_formed P st'.
Proof.
  unfold well_formed, checked. intros -> -> ->. auto.
Qed.

Lemma well_formed_complete (k : nat) (st : state) :
  well_formed P st -> well_formed P (complete k st).
Proof.
  intros (Ht & Hp & Hs & Hincl & Htc & Hpc).
  repeat split; simpl; auto.
  - now apply Forall_remove_nth.
  - intros r Hin. apply Hincl. now apply (remove_nth_incl _ k).
Qed.

Lemma well_formed_expire (k : nat) (st : state) :
  well_formed P st -> well_formed P (expire k st).
Proof.
  intros (Ht & Hp & Hs & Hincl & Htc & Hpc).
  repeat split; simpl; auto.
  - now apply Forall_remove_nth.
  - intros t Hin. apply (Htc t). now apply (remove_nth_incl _ k).
Qed.

Lemma well_formed_issue (r : request) (st : state) :
  request_ok P r ->
  (forall url form, r = ReqPublish url form -> checked st (form_sceneID form)) ->
  well_formed P st -> well_formed P (issue r st).
Proof.
  intros Hr Hpub (Ht & Hp & Hs & Hincl & Htc & Hpc).
  assert (incl (sent st) (sent (issue r st))) as Hmono
    by (simpl; apply incl_appl, incl_refl).
  repeat split; simpl.
  - exact Ht.
  - apply Forall_app. split; [exact Hp|]. now constructor.
  - apply Forall_app. split; [exact Hs|]. now constructor.
  - apply incl_app; [now apply incl_appl|apply incl_appr, incl_refl].
  - intros t Hin. apply (checked_mono st); [exact Hmono|]. now apply Htc.
  - intros url form Hin. apply (checked_mono st); [exact Hmono|].
    apply in_app_or in Hin as [Hin|[Heq|[]]]; [now apply (Hpc url)|].
    now apply (Hpub url).
Qed.

Lemma well_formed_setTimeout (id : value) (st : state) :
  P id -> checked st id ->
  well_formed P st -> well_formed P (setTimeout id recheckInterval st).
Proof.
  intros Hid Hch (Ht & Hp & Hs & Hincl & Htc & Hpc).
  repeat split; simpl; auto.
  - apply Forall_app. split; [exact Ht|]. constructor; [|constructor].
    split; [reflexivity|exact Hid].
  - intros t Hin. apply in_app_or in Hin as [Hin|[<-|[]]]; [now apply Htc|].
    exact Hch.
Qed.

Lemma publish_request_ok (id : value) :
  P id -> request_ok P (publish_request id).
Proof. intros Hid. simpl. split; [reflexivity|exact Hid]. Qed.

Lemma status_request_ok (id : value) (cb : status_callback) :
  P id ->
  match cb with
  | StatusCallback => True
  | SearchResultInner id' => id' = id
  end ->
  request_ok P (status_request id cb).
Proof. intros Hid Hcb. simpl. auto. Qed.

(** [handleSceneStatus] keeps a state well formed as soon as the scene it
    polls or publishes has [P] and a status request for it has gone out. *)
Lemma well_formed_handleSceneStatus (sceneID status mapID : value) (st : state) :
  (status = VStr REQUESTED \/ status = VStr NOT_YET_REQUESTED ->
   P sceneID /\ checked st sceneID) ->
  well_formed P st -> well_formed P (handleSceneStatus sceneID status mapID st).
Proof.
  intros Hid Hwf. unfold handleSceneStatus.
  set (st0 := console_info _ st).
  assert (well_formed P st0) as Hwf0 by (now apply (well_formed_ext st)).
  destruct (strict_eq_str status READY) eqn:E1;
    [now apply (well_formed_ext st0)|].
  destruct (strict_eq_str status REQUESTED) eqn:E2.
  - apply strict_eq_str_true in E2.
    destruct (Hid (or_introl E2)) as [Hs Hc].
    now apply well_formed_setTimeout.
  - destruct (strict_eq_str status NOT_YET_REQUESTED) eqn:E3;
      [|now apply (well_formed_ext st0)].
    apply strict_eq_str_true in E3.
    destruct (Hid (or_intror E3)) as [Hs Hc].
    apply well_formed_setTimeout; [exact Hs| |].
    + apply (checked_mono st0); [simpl; apply incl_appl, incl_refl|exact Hc].
    + apply well_formed_issue; [now apply publish_request_ok| |exact Hwf0].
      intros url form Heq. injection Heq as _ <-. exact Hc.
Qed.

Lemma well_formed_step (ev : event) (st st' : state) :
  searches_bring P [ev] ->
  well_formed P st -> step ev st = Some (Ok st') -> well_formed P st'.
Proof.
  intros Hev Hwf Hstep. destruct ev as [|k|k o|k o|k o]; simpl in Hstep.
  - injection Hstep as <-. apply well_formed_issue; [reflexivity|discriminate|exact Hwf].
  - destruct (nth_error (timers st) k) as [t|] eqn:Hnth; [|discriminate].
    injection Hstep as <-.
    destruct Hwf as (Ht & Hrest).
    assert (timer_ok P t) as [_ Hid]
      by (rewrite Forall_forall in Ht; apply Ht; eapply nth_error_In, Hnth).
    apply well_formed_issue;
      [now apply status_request_ok|discriminate|
       apply well_formed_expire; split; assumption].
  - destruct (nth_error (pending st) k) as [[url cb| |]|]; try discriminate.
    destruct cb.
    assert (well_formed P (complete k st)) as Hwfc by now apply well_formed_complete.
    destruct o as [e|statusCode data]; simpl in Hstep.
    + injection Hstep as <-. now apply (well_formed_ext (complete k st)).
    + destruct (statusCode =? 200)%Z eqn:Hcode; simpl in Hstep.
      * destruct data as [[|hit hits]]; simpl in Hstep; [discriminate|].
        injection Hstep as <-. apply Z.eqb_eq in Hcode. subst statusCode.
        apply well_formed_issue;
          [apply status_request_ok; [|reflexivity]|discriminate|exact Hwfc].
        apply (Hev k hit hits). now left.
      * injection Hstep as <-. now apply (well_formed_ext (complete k st)).
  - destruct (nth_error (pending st) k) as [[|url id cb|]|] eqn:Hnth;
      try discriminate.
    destruct (scenes_response id o) as [a|e] eqn:Hresp; simpl in Hstep;
      [|discriminate].
    injection Hstep as <-.
    assert (well_formed P (complete k st)) as Hwfc by now apply well_formed_complete.
    assert (request_ok P (ReqScenes url id cb)) as (_ & Hid & Hcb).
    { destruct Hwf as (_ & Hp & _). rewrite Forall_forall in Hp.
      apply Hp. eapply nth_error_In, Hnth. }
    assert (checked (complete k st) id) as Hch.
    { destruct Hwf as (_ & _ & _ & Hincl & _). exists url, cb.
      apply Hincl. eapply nth_error_In, Hnth. }
    assert (arg_status a = VStr REQUESTED \/
            arg_status a = VStr NOT_YET_REQUESTED -> arg_sceneID a = id) as Hsame.
    { intros [Hs|Hs]; now destruct (scenes_response_status _ _ _ _ Hresp Hs). }
    destruct cb as [|id']; simpl; unfold statusCallback, searchResultInner;
      (destruct (truthy (arg_err a));
       [now apply (well_formed_ext (complete k st))|]);
      apply well_formed_handleSceneStatus; try exact Hwfc; intros Hs.
    + rewrite (Hsame Hs). auto.
    + subst id'. auto.
  - destruct (nth_error (pending st) k) as [[| |url form]|]; try discriminate.
    injection Hstep as <-.
    assert (well_formed P (complete k st)) as Hwfc by now apply well_formed_complete.
    unfold publish_response.
    destruct o as [e|statusCode body]; [|destruct (negb (statusCode =? 200)%Z)];
      now apply (well_formed_ext (complete k st)).
Qed.

Lemma well_formed_run (evs : list event) (st st' : state) :
  searches_bring P evs ->
  well_formed P st -> run evs st = Some (Ok st') -> well_formed P st'.
Proof.
  revert st; induction evs as [|ev evs IH]; intros st Hevs Hwf Hrun; simpl in Hrun.
  - now injection Hrun as <-.
  - destruct (step ev st) as [[st1|e]|] eqn:Hstep; try discriminate.
    apply (IH st1); [| |exact Hrun].
    + intros k hit hits Hin. apply (Hevs k hit hits). now right.
    + apply (well_formed_step ev st); [|exact Hwf|exact Hstep].
      intros k hit hits [Heq|[]]. apply (Hevs k hit hits). now left.
Qed.

Lemma well_formed_start : well_formed P start.
Proof.
  unfold start, runSearchRequest.
  apply well_formed_issue; [reflexivity|discriminate|].
  repeat split; simpl; auto using incl_refl; try constructor;
    intros; contradiction.
Qed.

End WellFormed.

(** Every state of a run from the start is well formed for the scenes
    found by the searches of that run. *)
Lemma well_formed_reachable (evs : list event) (st : state) :
  run evs start = Some (Ok st) -> well_formed (found evs) st.
Proof.
  apply well_formed_run; [|apply well_formed_start].
  intros k hit hits Hin. now exists k, hit, hits.
Qed.

(** ** What a run of the program sends *)


(** X2. Every publish request of a run from the start goes to [/publish]
    with satellite [l8], the configured email and the configured method, and
    a status request for its scene has been sent. *)
Theorem publish_requests_carry_configuration
    (evs : list event) (st : state) (url : string) (form : formData) :
  run evs start = Some (Ok st) ->
  In (ReqPublish url form) (sent st) ->
  url = baseURL ++ "/publish" /\
  satellite form = "l8" /\
  form_email form = email /\
  process form = method /\
  checked st (form_sceneID form).
Proof.
  intros Hrun Hin.
  destruct (well_formed_reachable _ _ Hrun) as (_ & _ & Hs & _ & _ & Hpc).
  rewrite Forall_forall in Hs. destruct (Hs _ Hin) as (Heq & _).
  unfold publish_request in Heq. injection Heq as Hurl Hform.
  rewrite Hform. simpl. repeat split; auto.
  now apply (Hpc url).
Qed.

(** ** Uncaught exceptions *)



(** ** Where the content of [latestImage] comes from *)

Lemma scenes_loop_READY (n i : nat) (data : scenes_data) (sceneID : value)
    (a : status_args) :
  scenes_loop n i data sceneID = Ok a ->
  arg_status a = VStr READY ->
  exists s, In s (results data) /\ code (process_method s) = method /\
            ready s = true /\ arg_mapID a = map_id s.
Proof.
  revert i; induction n as [|n IH]; intros i H Hs; simpl in H.
  - injection H as <-. discriminate.
  - destruct (nth_error (results data) i) as [s|] eqn:Hnth; [|discriminate].
    destruct (matches_method s) eqn:Hm; [|now apply (IH (S i))].
    destruct (ready s) eqn:Hr; injection H as <-; [|discriminate].
    exists s. repeat split; auto.
    + eapply nth_error_In, Hnth.
    + now apply matches_method_eq.
Qed.

Lemma step_latestImage (ev : event) (st st' : state) :
  step ev st = Some (Ok st') ->
  latestImage st' = latestImage st \/
  exists k data s,
    ev = ScenesAnswer k (Response 200 data) /\
    In s (results data) /\ code (process_method s) = method /\
    ready s = true /\ latestImage st' = map_id s.
Proof.
  intros Hstep. destruct ev as [|k|k o|k o|k o]; simpl in Hstep.
  - injection Hstep as <-. now left.
  - destruct (nth_error (timers st) k); [|discriminate].
    injection Hstep as <-. now left.
  - destruct (nth_error (pending st) k) as [[url cb| |]|]; try discriminate.
    destruct (search_response o) as [[err id]|e]; simpl in Hstep; [|discriminate].
    injection Hstep as <-. left. destruct cb. simpl. unfold handleSearchResult.
    now destruct (truthy err).
  - destruct (nth_error (pending st) k) as [[|url id cb|]|]; try discriminate.
    destruct (scenes_response id o) as [a|e] eqn:Hresp; simpl in Hstep;
      [|discriminate].
    injection Hstep as <-.
    assert (latestImage (call_status_callback cb a (complete k st)) =
            slot_after a (latestImage st)) as Hslot.
    { unfold slot_after.
      destruct cb; simpl; unfold statusCallback, searchResultInner;
        (destruct (truthy (arg_err a)); [reflexivity|]);
        now rewrite handleSceneStatus_latestImage. }
    rewrite Hslot. unfold slot_after.
    destruct (truthy (arg_err a)); [now left|].
    destruct (strict_eq_str (arg_status a) READY) eqn:Hready; [|now left].
    apply strict_eq_str_true in Hready. right.
    destruct o as [err|statusCode data]; simpl in Hresp.
    + injection Hresp as <-. discriminate.
    + destruct (statusCode =? 200)%Z eqn:Hcode; simpl in Hresp.
      * apply Z.eqb_eq in Hcode. subst statusCode.
        destruct (scenes_loop_READY _ _ _ _ _ Hresp Hready) as (s & H1 & H2 & H3 & H4).
        exists k, data, s. auto.
      * injection Hresp as <-. discriminate.
  - destruct (nth_error (pending st) k) as [[| |]|]; try discriminate.
    injection Hstep as <-. left. unfold publish_response.
    destruct o as [err|statusCode body]; [|destruct (negb (statusCode =? 200)%Z)];
      reflexivity.
Qed.

(** X4. After any run, [latestImage] holds what it held before, or the
    [map_id] of an entry that some 200 status answer of the run listed as
    ready under the configured method.  Nothing else is ever stored. *)
Theorem latestImage_provenance (evs : list event) (st st' : state) :
  run evs st = Some (Ok st') ->
  latestImage st' = latestImage st \/
  exists k data s,
    In (ScenesAnswer k (Response 200 data)) evs /\
    In s (results data) /\ code (process_method s) = method /\
    ready s = true /\ latestImage st' = map_id s.
Proof.
  revert st; induction evs as [|ev evs IH]; intros st Hrun; simpl in Hrun.
  - injection Hrun as <-. now left.
  - destruct (step ev st) as [[st1|e]|] eqn:Hstep; try discriminate.
    destruct (IH _ Hrun) as [Heq|(k & data & s & Hin & H)].
    + rewrite Heq.
      destruct (step_latestImage _ _ _ Hstep) as [Heq1|(k & data & s & -> & H)].
      * now left.
      * right. exists k, data, s. split; [now left|exact H].
    + right. exists k, data, s. split; [now right|exact H].
Qed.

(** ** How many chains a run can have *)

Lemma rechecks_armed_le (status : value) : (rechecks_armed status <= 1)%nat.
Proof.
  unfold rechecks_armed.
  destruct (strict_eq_str status READY); [lia|].
  destruct (strict_eq_str status REQUESTED); [lia|].
  destruct (strict_eq_str status NOT_YET_REQUESTED); lia.
Qed.

Lemma live_checks_issue (r : request) (st : state) :
  live_checks (issue r st) =
  (live_checks st + if is_status_check r then 1 else 0)%nat.
Proof.
  unfold live_checks; simpl. rewrite filter_app, length_app. simpl.
  destruct (is_status_check r); simpl; lia.
Qed.

Lemma step_live_checks (ev : event) (st st' : state) :
  step ev st = Some (Ok st') ->
  (live_checks st' <=
   live_checks st + if is_search_answer ev then 1 else 0)%nat.
Proof.
  intros Hstep. destruct ev as [|k|k o|k o|k o]; simpl in Hstep.
  - injection Hstep as <-. unfold runSearchRequest.
    rewrite live_checks_issue. simpl. lia.
  - destruct (nth_error (timers st) k) as [t|] eqn:Hnth; [|discriminate].
    injection Hstep as <-. unfold getSceneStatus.
    rewrite live_checks_issue, (live_checks_expire _ _ _ Hnth). simpl. lia.
  - destruct (nth_error (pending st) k) as [[url cb| |]|] eqn:Hnth;
      try discriminate.
    destruct (search_response o) as [[err id]|e]; simpl in Hstep; [|discriminate].
    injection Hstep as <-.
    rewrite (live_checks_complete _ _ _ Hnth). simpl.
    destruct cb; simpl. unfold handleSearchResult.
    destruct (truthy err).
    + unfold live_checks; simpl. lia.
    + unfold getSceneStatus. rewrite live_checks_issue. simpl. lia.
  - destruct (nth_error (pending st) k) as [[|url id cb|]|] eqn:Hnth;
      try discriminate.
    destruct (scenes_response id o) as [a|e]; simpl in Hstep; [|discriminate].
    injection Hstep as <-.
    rewrite call_status_callback_live_checks, (live_checks_complete _ _ _ Hnth).
    simpl. pose proof (rechecks_armed_le (arg_status a)).
    destruct (truthy (arg_err a)); lia.
  - destruct (nth_error (pending st) k) as [[| |url form]|] eqn:Hnth;
      try discriminate.
    injection Hstep as <-.
    rewrite (live_checks_complete _ _ _ Hnth). simpl.
    unfold publish_response.
    destruct o as [err|statusCode body]; [|destruct (negb (statusCode =? 200)%Z)];
      unfold live_checks; simpl; lia.
Qed.

(** X5. Polling chains are started by search answers only: after any run,
    the status checks still to come (timers armed plus status requests in
    flight) exceed those at the beginning by at most the number of search
    answers in the run.  A status check never branches into two. *)
Theorem live_checks_bounded_by_searches (evs : list event) (st st' : state) :
  run evs st = Some (Ok st') ->
  (live_checks st' <=
   live_checks st + List.length (filter is_search_answer evs))%nat.
Proof.
  revert st; induction evs as [|ev evs IH]; intros st Hrun; simpl in Hrun.
  - injection Hrun as <-. simpl. lia.
  - destruct (step ev st) as [[st1|e]|] eqn:Hstep; try discriminate.
    pose proof (IH _ Hrun) as H1.
    pose proof (step_live_checks _ _ _ Hstep) as H2.
    simpl. destruct (is_search_answer ev); simpl; lia.
Qed.

(** ** A search answer *)


(** ** The identifier handed on by the search *)

Lemma ltrim_head (s : string) :
  match ltrim s with
  | EmptyString => True
  | String a _ => is_space a = false
  end.
Proof.
  induction s as [|a s IH]; simpl; [exact I|].
  destruct (is_space a) eqn:Ha; [exact IH|exact Ha].
Qed.

Lemma rtrim_idempotent (s : string) : rtrim (rtrim s) = rtrim s.
Proof.
  induction s as [|a s IH]; simpl; [reflexivity|].
  destruct (rtrim s) as [|b r] eqn:Hr.
  - destruct (is_space a) eqn:Ha; simpl; [reflexivity|now rewrite Ha].
  - simpl in IH. simpl.
    destruct (match rtrim r with
              | EmptyString => if is_space b then EmptyString else String b EmptyString
              | String a0 s0 => String b (String a0 s0)
              end) eqn:Hm; [discriminate|].
    now rewrite <- IH.
Qed.

Lemma rtrim_keeps_head (a : ascii) (s : string) :
  is_space a = false -> exists r, rtrim (String a s) = String a r.
Proof.
  intros Ha. simpl. destruct (rtrim s); [rewrite Ha|]; eauto.
Qed.

Lemma trim_fixed (s : string) :
  ltrim (trim s) = trim s /\ rtrim (trim s) = trim s.
Proof.
  unfold trim. split; [|apply rtrim_idempotent].
  pose proof (ltrim_head s) as Hh.
  destruct (ltrim s) as [|a r]; [reflexivity|].
  destruct (rtrim_keeps_head a r Hh) as [r' ->].
  simpl. now rewrite Hh.
Qed.

(** X7. The scene identifier that a search hands to its callback carries no
    leading and no trailing white space: stripping either end again changes
    nothing. *)
Theorem search_hands_on_trimmed_identifier
    (o : outcome search_data) (err : value) (id : string) :
  search_response o = Ok (err, VStr id) ->
  ltrim id = id /\ rtrim id = id /\ trim id = id.
Proof.
  intros H.
  assert (exists s, id = trim s) as [s ->].
  { destruct o as [e|statusCode data]; simpl in H; [discriminate|].
    destruct (negb (statusCode =? 200)%Z); [discriminate|].
    destruct data as [[|hit hits]]; simpl in H; [discriminate|].
    injection H as _ <-. now exists (hit_sceneID hit). }
  destruct (trim_fixed s) as [Hl Hr].
  split; [exact Hl|]. split; [exact Hr|].
  unfold trim at 1. now rewrite Hl, Hr.
Qed.

(** ** A chain that is not ready *)

(** A state whose only request in flight is the status check of [id] by
    [statusCallback], with no timer armed. *)
Lemma requested_round (id : value) (o : outcome scenes_data) (a : status_args)
    (st : state) :
  pending st = [status_request id StatusCallback] ->
  timers st = [] ->
  scenes_response id o = Ok a ->
  arg_status a = VStr REQUESTED ->
  exists st',
    run (polling_round o) st = Some (Ok st') /\
    pending st' = [status_request id StatusCallback] /\
    timers st' = [] /\
    latestImage st' = latestImage st /\
    sent st' = (sent st ++ [status_request id StatusCallback])%list.
Proof.
  intros Hp Ht Hresp Hs.
  destruct (scenes_response_status _ _ _ _ Hresp Hs) as [Herr Hid].
  destruct st as [li con tm pd sn]. simpl in Hp, Ht. subst pd tm.
  destruct a as [aerr astatus amap aid]. simpl in Hs, Herr, Hid. subst.
  unfold polling_round, run, step.
  cbn [pending nth_error status_request]. rewrite Hresp.
  cbn [bind call_status_callback statusCallback arg_err truthy
       arg_sceneID arg_status arg_mapID].
  rewrite handleSceneStatus_REQUESTED.
  eexists. split; [reflexivity|]. repeat split.
Qed.

Lemma not_yet_requested_round (id : value) (o : outcome scenes_data)
    (po : outcome value) (a : status_args) (st : state) :
  pending st = [status_request id StatusCallback] ->
  timers st = [] ->
  scenes_response id o = Ok a ->
  arg_status a = VStr NOT_YET_REQUESTED ->
  exists st',
    run (publishing_round o po) st = Some (Ok st') /\
    pending st' = [status_request id StatusCallback] /\
    timers st' = [] /\
    latestImage st' = latestImage st /\
    sent st' = (sent st ++ [publish_request id;
                            status_request id StatusCallback])%list.
Proof.
  intros Hp Ht Hresp Hs.
  destruct (scenes_response_status _ _ _ _ Hresp Hs) as [Herr Hid].
  destruct st as [li con tm pd sn]. simpl in Hp, Ht. subst pd tm.
  destruct a as [aerr astatus amap aid]. simpl in Hs, Herr, Hid. subst.
  unfold publishing_round, run, step.
  cbn [pending nth_error status_request]. rewrite Hresp.
  cbn [bind call_status_callback statusCallback arg_err truthy
       arg_sceneID arg_status arg_mapID].
  set (st0 := {| latestImage := li; console := con; timers := [];
                 pending := [ReqScenes (baseURL ++ "/scenes?sceneID=" ++ to_string id)
                               id StatusCallback];
                 sent := sn |}).
  exists (getSceneStatus id StatusCallback
            (expire 0
               (publish_response po
                  (complete 0
                     (handleSceneStatus id (VStr NOT_YET_REQUESTED) amap
                        (complete 0 st0)))))).
  rewrite handleSceneStatus_NOT_YET_REQUESTED. unfold publish_response.
  destruct po as [e|statusCode body]; [|destruct (negb (statusCode =? 200)%Z)];
    (split; [reflexivity|]); simpl; rewrite <- app_assoc; repeat split.
Qed.

(** X8. A chain polls for as long as the provider answers [REQUESTED]:
    there is no retry limit.  After any number [n] of rounds (answer, then
    timer) the chain is where it began, with its status request in flight
    again; [latestImage] is untouched, and the only requests sent are [n]
    further status requests for the same scene, none of them a publish
    request. *)
Theorem polling_has_no_retry_limit
    (n : nat) (id : value) (o : outcome scenes_data) (a : status_args)
    (st : state) :
  pending st = [status_request id StatusCallback] ->
  timers st = [] ->
  scenes_response id o = Ok a ->
  arg_status a = VStr REQUESTED ->
  exists st',
    run (rounds n (polling_round o)) st = Some (Ok st') /\
    pending st' = [status_request id StatusCallback] /\
    timers st' = [] /\
    latestImage st' = latestImage st /\
    sent st' = (sent st ++ repeat (status_request id StatusCallback) n)%list.
Proof.
  intros Hp Ht Hresp Hs. revert st Hp Ht.
  induction n as [|n IH]; intros st Hp Ht.
  - exists st. simpl. rewrite app_nil_r. auto.
  - destruct (requested_round id o a st Hp Ht Hresp Hs)
      as (st1 & Hrun1 & Hp1 & Ht1 & Hl1 & Hs1).
    destruct (IH st1 Hp1 Ht1) as (st2 & Hrun2 & Hp2 & Ht2 & Hl2 & Hs2).
    exists st2.
    change (rounds (S n) (polling_round o))
      with (polling_round o ++ rounds n (polling_round o))%list.
    rewrite run_app, Hrun1.
    repeat split; try assumption; try congruence.
    rewrite Hs2, Hs1, <- app_assoc. reflexivity.
Qed.

(** X9. The publish request is posted again on every check that finds
    [NOT_YET_REQUESTED]: the program keeps no record of having asked.  After
    [n] rounds (answer, answer to the publish request, timer) exactly [n]
    publish requests and [n] status requests for the scene have been added
    to those sent, in alternation. *)
Theorem publish_is_repeated_while_not_yet_requested
    (n : nat) (id : value) (o : outcome scenes_data) (po : outcome value)
    (a : status_args) (st : state) :
  pending st = [status_request id StatusCallback] ->
  timers st = [] ->
  scenes_response id o = Ok a ->
  arg_status a = VStr NOT_YET_REQUESTED ->
  exists st',
    run (rounds n (publishing_round o po)) st = Some (Ok st') /\
    pending st' = [status_request id StatusCallback] /\
    timers st' = [] /\
    latestImage st' = latestImage st /\
    sent st' =
      (sent st ++
       List.concat (repeat [publish_request id; status_request id StatusCallback] n))%list.
Proof.
  intros Hp Ht Hresp Hs. revert st Hp Ht.
  induction n as [|n IH]; intros st Hp Ht.
  - exists st. simpl. rewrite app_nil_r. auto.
  - destruct (not_yet_requested_round id o po a st Hp Ht Hresp Hs)
      as (st1 & Hrun1 & Hp1 & Ht1 & Hl1 & Hs1).
    destruct (IH st1 Hp1 Ht1) as (st2 & Hrun2 & Hp2 & Ht2 & Hl2 & Hs2).
    exists st2.
    change (rounds (S n) (publishing_round o po))
      with (publishing_round o po ++ rounds n (publishing_round o po))%list.
    rewrite run_app, Hrun1.
    repeat split; try assumption; try congruence.
    rewrite Hs2, Hs1, <- app_assoc. reflexivity.
Qed.

(** ** The page route *)

(** What the reconciliation depends on: everything but the console. *)
Lemma step_ignores_console (ev : event) (st1 st2 : state) :
  latestImage st1 = latestImage st2 -> timers st1 = timers st2 ->
  pending st1 = pending st2 -> sent st1 = sent st2 ->
  match step ev st1, step ev st2 with
  | Some (Ok s1), Some (Ok s2) =>
      latestImage s1 = latestImage s2 /\ timers s1 = timers s2 /\
      pending s1 = pending s2 /\ sent s1 = sent s2
  | Some (Throw e1), Some (Throw e2) => e1 = e2
  | None, None => True
  | _, _ => False
  end.
Proof.
  destruct st1 as [l1 c1 t1 p1 s1], st2 as [l2 c2 t2 p2 s2]; simpl.
  intros <- <- <- <-.
  destruct ev as [|k|k o|k o|k o]; simpl.
  - auto.
  - destruct (nth_error t1 k); simpl; auto.
  - destruct (nth_error p1 k) as [[url cb| |]|]; auto.
    destruct (search_response o) as [[err id]|e]; simpl; auto.
    destruct cb; simpl. unfold handleSearchResult.
    destruct (truthy err); simpl; auto.
  - destruct (nth_error p1 k) as [[|url id cb|]|]; auto.
    destruct (scenes_response id o) as [a|e]; simpl; auto.
    destruct cb; simpl; unfold statusCallback, searchResultInner;
      (destruct (truthy (arg_err a)); simpl; auto);
      unfold handleSceneStatus;
      destruct (strict_eq_str (arg_status a) READY); simpl; auto;
      destruct (strict_eq_str (arg_status a) REQUESTED); simpl; auto;
      destruct (strict_eq_str (arg_status a) NOT_YET_REQUESTED); simpl; auto.
  - destruct (nth_error p1 k) as [[| |url form]|]; auto.
    unfold publish_response.
    destruct o as [e|statusCode body]; [|destruct (negb (statusCode =? 200)%Z)];
      simpl; auto.
Qed.

(** X10. A page request shows the current content of [latestImage] and
    writes one console line; it changes neither [latestImage] nor the timers
    nor the requests, and the next turn of the event loop does the same to
    them (and raises the same) as it would have done without the page
    request. *)
Theorem page_request_is_read_only (ev : event) (st : state) :
  ctx_sceneID (fst (page_request st)) = latestImage st /\
  latestImage (snd (page_request st)) = latestImage st /\
  timers (snd (page_request st)) = timers st /\
  pending (snd (page_request st)) = pending st /\
  sent (snd (page_request st)) = sent st /\
  console (snd (page_request st)) =
    (console st ++ [Info ("Page reload requested, latest image is " ++
                          to_string (latestImage st) ++ ".")])%list /\
  match step ev (snd (page_request st)), step ev st with
  | Some (Ok s1), Some (Ok s2) =>
      latestImage s1 = latestImage s2 /\ timers s1 = timers s2 /\
      pending s1 = pending s2 /\ sent s1 = sent s2
  | Some (Throw e1), Some (Throw e2) => e1 = e2
  | None, None => True
  | _, _ => False
  end.
Proof.
  repeat (split; [reflexivity|]).
  apply step_ignores_console; reflexivity.
Qed.

(** ** Input verification *)

(** X11. The program enters the event loop, with its first search sent, only
    when the email, the method and both coordinates are non-empty; when any
    of them is empty it logs one error line and exits with code 1 without
    sending a request. *)
Theorem main_verifies_inputs :
  (email <> "" /\ method <> "" /\
   fst imageCenter <> "" /\ snd imageCenter <> "" ->
   main = Running start) /\
  (email = "" \/ method = "" \/
   fst imageCenter = "" \/ snd imageCenter = "" ->
   exists st,
     main = Exited 1 st /\
     sent st = [] /\ pending st = [] /\ timers st = [] /\
     latestImage st = VUndefined /\
     console st = [Error [VStr "Uh oh, you are missing some required input data"]]).
Proof.
  unfold main, inputs_missing. simpl. split.
  - intros (He & Hm & Hf & Hs).
    apply String.eqb_neq in He, Hm, Hf, Hs. now rewrite He, Hm, Hf, Hs.
  - intros H.
    exists (console_error
              [VStr "Uh oh, you are missing some required input data"]
              initial_state).
    split; [|repeat split].
    assert (negb (negb (email =? "")) || (email =? "") || false ||
            (fst imageCenter =? "") || (snd imageCenter =? "") ||
            negb (negb (method =? "")) || (method =? "") = true) as ->;
      [|reflexivity].
    destruct H as [H|[H|[H|H]]]; apply String.eqb_eq in H; rewrite H; simpl;
      rewrite ?orb_true_r; reflexivity.
Qed.

(** ** More on the scan and on the two callbacks *)

(** X13. When [count] exceeds the length of [results] but some entry
    carries the configured method, the scan returns at that entry before it
    reaches the end of the array: the status is that of the first matching
    entry and nothing is raised. *)
Theorem getSceneStatus_overrun_with_match
    (data : scenes_data) (sceneID : value) (s : scene) :
  (Z.of_nat (List.length (results data)) < count data)%Z ->
  In s (results data) ->
  code (process_method s) = method ->
  scenes_response sceneID (Response 200 data) =
  Ok (spec_getStatus (results data) sceneID).
Proof.
  intros Hlt Hin Hm. simpl.
  rewrite scenes_loop_overrun by (simpl; lia). simpl.
  destruct (find matches_method (results data)) eqn:Hfind; [reflexivity|].
  apply matches_method_eq in Hm.
  rewrite (find_none _ _ Hfind s Hin) in Hm. discriminate.
Qed.

(** X14. The callback of the first check of a cycle (the anonymous function
    in [handleSearchResult]) and [statusCallback] treat every answer of the
    provider alike: on an answer with status 200 or on a network failure
    they produce the same state, and on any other answer they differ only in
    the scene named on the console line. *)
Theorem callbacks_agree
    (id : value) (o : outcome scenes_data) (a : status_args) (st : state) :
  scenes_response id o = Ok a ->
  latestImage (searchResultInner id a st) = latestImage (statusCallback a st) /\
  timers (searchResultInner id a st) = timers (statusCallback a st) /\
  pending (searchResultInner id a st) = pending (statusCallback a st) /\
  sent (searchResultInner id a st) = sent (statusCallback a st) /\
  (match o with
   | NetworkFailure _ => True
   | Response statusCode _ => statusCode = 200%Z
   end ->
   searchResultInner id a st = statusCallback a st).
Proof.
  intros Hresp. destruct o as [e|statusCode data]; simpl in Hresp.
  - injection Hresp as <-. repeat split.
  - destruct (statusCode =? 200)%Z eqn:Hcode; simpl in Hresp.
    + destruct (scenes_loop_args _ _ _ _ _ Hresp) as [Herr Hid].
      unfold searchResultInner, statusCallback. rewrite Herr, Hid. simpl.
      repeat split.
    + injection Hresp as <-. repeat split.
      intros ->. discriminate.
Qed.

End Program.

(** ** The scenarios of the specification, run on the model *)

Example trim_sceneID : trim "  LC80100102015050LGN00  " = "LC80100102015050LGN00".
Proof. reflexivity. Qed.

(** Scenario A. *)
Example scenario_A :
  run sample_method sample_email sample_center
    [SearchAnswer 0 (Response 200 {| search_results := [{| hit_sceneID := "LC80100102015050LGN00 " |}] |});
     ScenesAnswer 0 (Response 200 {| count := 1; results := [entry "ndvi" true (VStr "zzz")] |});
     TimerFires 0;
     ScenesAnswer 1 (Response 200 ready_data)]
    (start sample_center) =
  Some (Ok {|
    latestImage := VStr "abc123";
    console :=
      [Info "Just checked on the status of LC80100102015050LGN00 and it is NOT_YET_REQUESTED.";
       Info "Just checked on the status of LC80100102015050LGN00 and it is READY."];
    timers := [];
    pending := [publish_request sample_method sample_email sample_scene];
    sent := [ReqSearch (baseURL ++ searchString sample_center) HandleSearchResult;
             status_request sample_scene (SearchResultInner sample_scene);
             publish_request sample_method sample_email sample_scene;
             status_request sample_scene StatusCallback] |}).
Proof. reflexivity. Qed.

(** Scenario B, with the provider answering a search without matches by a
    status other than 200. *)
Example scenario_B :
  run sample_method sample_email sample_center
    [SearchAnswer 0 (Response 404 {| search_results := [] |})]
    (start sample_center) =
  Some (Ok {|
    latestImage := VUndefined;
    console := [Error [no_match_message]];
    timers := [];
    pending := [];
    sent := [ReqSearch (baseURL ++ searchString sample_center) HandleSearchResult] |}).
Proof. reflexivity. Qed.

(** ** The theorems at concrete inputs *)

Example getSceneStatus_ready_listing :
  scenes_response sample_method sample_scene
    (Response 200 (listing [entry "ndvi" false VNull;
                            entry "trueColor" true (VStr "abc123")])) =
  Ok {| arg_err := VNull; arg_status := VStr READY;
        arg_mapID := VStr "abc123"; arg_sceneID := sample_scene |}.
Proof. reflexivity. Qed.

(** With two entries for the method, the first one decides. *)
Example getSceneStatus_first_entry_decides :
  scenes_response sample_method sample_scene
    (Response 200 (listing [entry "trueColor" false VNull;
                            entry "trueColor" true (VStr "abc123")])) =
  Ok {| arg_err := VNull; arg_status := VStr REQUESTED;
        arg_mapID := VNull; arg_sceneID := sample_scene |}.
Proof. reflexivity. Qed.

(** Entries past [count] are not scanned. *)
Example getSceneStatus_count_truncates :
  scenes_response sample_method sample_scene
    (Response 200 {| count := 0;
                     results := [entry "trueColor" true (VStr "abc123")] |}) =
  Ok {| arg_err := VNull; arg_status := VStr NOT_YET_REQUESTED;
        arg_mapID := VNull; arg_sceneID := sample_scene |}.
Proof. reflexivity. Qed.

Lemma getSceneStatus_count_is_loop_bound_witness :
  (count requested_data <= Z.of_nat (List.length (results requested_data)))%Z /\
  scenes_response sample_method sample_scene (Response 200 requested_data) =
    Ok {| arg_err := VNull; arg_status := VStr REQUESTED;
          arg_mapID := VNull; arg_sceneID := sample_scene |} /\
  (Z.of_nat (List.length (results short_data)) < count short_data)%Z /\
  scenes_response sample_method sample_scene (Response 200 short_data) =
    Throw (TypeError "process_method").
Proof.
  assert (count requested_data <= Z.of_nat (List.length (results requested_data)))%Z
    as Hle by (simpl; lia).
  assert (Z.of_nat (List.length (results short_data)) < count short_data)%Z
    as Hlt by (simpl; lia).
  split; [exact Hle|]. split; [|split; [exact Hlt|]].
  - rewrite (proj1 (getSceneStatus_count_is_loop_bound sample_method)
               requested_data sample_scene Hle).
    reflexivity.
  - apply (proj1 (proj2 (getSceneStatus_count_is_loop_bound sample_method))
             short_data sample_scene Hlt).
    intros s [<-|[]]. discriminate.
Defined.

Lemma latestImage_written_only_on_READY_witness :
  latestImage (handleSceneStatus sample_method sample_email sample_scene
                 (VStr READY) (VStr "abc123") initial_state) = VStr "abc123" /\
  latestImage (handleSceneStatus sample_method sample_email sample_scene
                 (VStr NOT_YET_REQUESTED) VNull initial_state) = VUndefined.
Proof.
  pose (a := {| arg_err := VErr "ECONNRESET"; arg_status := VNull;
                arg_mapID := VNull; arg_sceneID := VNull |}).
  split.
  - apply (proj1 (latestImage_written_only_on_READY sample_method sample_email
                    sample_scene (VStr READY) (VStr "abc123") a initial_state)).
    reflexivity.
  - apply (proj1 (proj2 (latestImage_written_only_on_READY sample_method sample_email
                    sample_scene (VStr NOT_YET_REQUESTED) VNull a initial_state))).
    discriminate.
Defined.

Lemma recheck_scheduling_witness :
  exists st' : state,
    step sample_method sample_email sample_center
      (ScenesAnswer 0 (Response 200 ready_data)) (getSceneStatus sample_scene StatusCallback initial_state) = Some (Ok st') /\
    timers st' = [] /\
    live_checks st' = O /\
    run sample_method sample_email sample_center
      [TimerFires 0] st' = None.
Proof.
  destruct (proj2 (proj2 (proj2 (proj2
             (recheck_scheduling sample_method sample_email sample_center
                sample_scene VNull (getSceneStatus sample_scene StatusCallback initial_state)))))
             0%nat (Response 200 ready_data)
             (baseURL ++ "/scenes?sceneID=" ++ to_string sample_scene)
             sample_scene StatusCallback
             {| arg_err := VNull; arg_status := VStr READY;
                arg_mapID := VStr "abc123"; arg_sceneID := sample_scene |}
             eq_refl eq_refl eq_refl)
    as (st' & Hstep & Ht & _ & Hlive & _).
  exists st'. split; [exact Hstep|]. split; [exact Ht|].
  split; [change (live_checks (getSceneStatus sample_scene StatusCallback initial_state)) with 1%nat in Hlive; congruence|].
  simpl. change (timers (getSceneStatus sample_scene StatusCallback initial_state)) with (@nil timer) in Ht.
  rewrite Ht. reflexivity.
Defined.

Lemma unknown_status_stops_chain_witness :
  handleSceneStatus sample_method sample_email sample_scene (VStr "FAILED") VNull
    initial_state =
  {| latestImage := VUndefined;
     console := [Info "Just checked on the status of LC80100102015050LGN00 and it is FAILED.";
                 Error [VStr "Unhandled scene status"]];
     timers := []; pending := []; sent := [] |}.
Proof.
  apply (proj1 (unknown_status_stops_chain sample_method sample_email sample_scene
                  (VStr "FAILED") VNull initial_state
                  ltac:(discriminate) ltac:(discriminate) ltac:(discriminate))).
Defined.

Lemma publish_then_ready_round_trip_witness :
  scenes_response sample_method sample_scene (Response 200 ready_data) =
    Ok {| arg_err := VNull; arg_status := VStr READY;
          arg_mapID := VStr "abc123"; arg_sceneID := sample_scene |} /\
  exists st2 st3 : state,
    step sample_method sample_email sample_center (TimerFires 0)
      (handleSceneStatus sample_method sample_email sample_scene
         (VStr NOT_YET_REQUESTED) VNull initial_state) = Some (Ok st2) /\
    step sample_method sample_email sample_center
      (ScenesAnswer 1 (Response 200 ready_data)) st2 = Some (Ok st3) /\
    latestImage st3 = VStr "abc123".
Proof.
  split; [reflexivity|].
  exact (proj2 (publish_then_ready_round_trip sample_method sample_email
                  sample_center sample_scene VNull (VStr "abc123") ready_data
                  initial_state eq_refl)).
Defined.

Lemma publish_failure_is_swallowed_witness :
  step sample_method sample_email sample_center
    (PublishAnswer 0 (Response 503 (VStr "Service Unavailable"))) (publishScene sample_method sample_email sample_scene initial_state) =
  Some (Ok {| latestImage := VUndefined;
              console := [Error [VStr "Received a non-200 status code.";
                                 VStr "Service Unavailable"; VNull]];
              timers := []; pending := [];
              sent := [publish_request sample_method sample_email sample_scene] |}).
Proof.
  rewrite (proj1 (proj2 (proj2
             (publish_failure_is_swallowed sample_method sample_email sample_center
                (Response 503 (VStr "Service Unavailable")) sample_scene 0
                (publishScene sample_method sample_email sample_scene initial_state))))
             (baseURL ++ "/publish")
             {| satellite := "l8"; form_sceneID := sample_scene;
                form_email := sample_email; process := sample_method |}
             eq_refl).
  reflexivity.
Defined.


Lemma publish_requests_carry_configuration_witness :
  exists st : state,
    run sample_method sample_email sample_center scenario_events
      (start sample_center) = Some (Ok st) /\
    checked st sample_scene.
Proof.
  eexists. split; [exact scenario_A|].
  apply (publish_requests_carry_configuration sample_method sample_email
           sample_center scenario_events _ (baseURL ++ "/publish")
           {| satellite := "l8"; form_sceneID := sample_scene;
              form_email := sample_email; process := sample_method |}
           scenario_A).
  simpl. auto.
Defined.


Lemma latestImage_provenance_witness :
  exists st : state,
    run sample_method sample_email sample_center scenario_events
      (start sample_center) = Some (Ok st) /\
    (latestImage st = latestImage (start sample_center) \/
     exists k data s,
       In (ScenesAnswer k (Response 200 data)) scenario_events /\
       In s (results data) /\ code (process_method s) = sample_method /\
       ready s = true /\ latestImage st = map_id s).
Proof.
  eexists. split; [exact scenario_A|].
  apply (latestImage_provenance sample_method sample_email sample_center
           scenario_events _ _ scenario_A).
Defined.

Lemma live_checks_bounded_by_searches_witness :
  exists st : state,
    run sample_method sample_email sample_center scenario_events
      (start sample_center) = Some (Ok st) /\
    (live_checks st <= live_checks (start sample_center) + 1)%nat.
Proof.
  eexists. split; [exact scenario_A|].
  apply (live_checks_bounded_by_searches sample_method sample_email sample_center
           scenario_events _ _ scenario_A).
Defined.


Lemma search_hands_on_trimmed_identifier_witness :
  trim "LC80100102015050LGN00" = "LC80100102015050LGN00".
Proof.
  apply (search_hands_on_trimmed_identifier
           (Response 200 {| search_results := [{| hit_sceneID := " LC80100102015050LGN00 " |}] |})
           VNull "LC80100102015050LGN00" eq_refl).
Defined.

Lemma polling_has_no_retry_limit_witness :
  exists st : state,
    run sample_method sample_email sample_center
      (rounds 3 (polling_round (Response 200 requested_data)))
      (getSceneStatus sample_scene StatusCallback initial_state) = Some (Ok st) /\
    latestImage st = VUndefined /\
    List.length (sent st) = 4%nat.
Proof.
  destruct (polling_has_no_retry_limit sample_method sample_email sample_center
              3 sample_scene (Response 200 requested_data)
              {| arg_err := VNull; arg_status := VStr REQUESTED;
                 arg_mapID := VNull; arg_sceneID := sample_scene |}
              (getSceneStatus sample_scene StatusCallback initial_state)
              eq_refl eq_refl eq_refl eq_refl)
    as (st & Hrun & _ & _ & Hl & Hs).
  exists st. split; [exact Hrun|]. split; [exact Hl|].
  rewrite Hs. reflexivity.
Defined.

Lemma publish_is_repeated_while_not_yet_requested_witness :
  exists st : state,
    run sample_method sample_email sample_center
      (rounds 2 (publishing_round (Response 200 other_data)
                   (Response 200 (VStr "queued"))))
      (getSceneStatus sample_scene StatusCallback initial_state) = Some (Ok st) /\
    sent st =
      [status_request sample_scene StatusCallback;
       publish_request sample_method sample_email sample_scene;
       status_request sample_scene StatusCallback;
       publish_request sample_method sample_email sample_scene;
       status_request sample_scene StatusCallback].
Proof.
  destruct (publish_is_repeated_while_not_yet_requested sample_method sample_email
              sample_center 2 sample_scene (Response 200 other_data)
              (Response 200 (VStr "queued"))
              {| arg_err := VNull; arg_status := VStr NOT_YET_REQUESTED;
                 arg_mapID := VNull; arg_sceneID := sample_scene |}
              (getSceneStatus sample_scene StatusCallback initial_state)
              eq_refl eq_refl eq_refl eq_refl)
    as (st & Hrun & _ & _ & _ & Hs).
  exists st. split; [exact Hrun|exact Hs].
Defined.

Lemma main_verifies_inputs_witness :
  main sample_method sample_email sample_center = Running (start sample_center) /\
  exists st : state,
    main sample_method "" sample_center = Exited 1 st /\ sent st = [].
Proof.
  split.
  - apply (proj1 (main_verifies_inputs sample_method sample_email sample_center)).
    repeat split; discriminate.
  - destruct (proj2 (main_verifies_inputs sample_method "" sample_center)
                (or_introl eq_refl)) as (st & Hmain & Hsent & _).
    exists st. split; [exact Hmain|exact Hsent].
Defined.

Lemma getSceneStatus_unique_entry_witness :
  scenes_response sample_method sample_scene (Response 200 ready_data) =
  Ok {| arg_err := VNull; arg_status := VStr READY;
        arg_mapID := VStr "abc123"; arg_sceneID := sample_scene |}.
Proof.
  apply (getSceneStatus_unique_entry sample_method ready_data sample_scene
           (entry "trueColor" true (VStr "abc123")) eq_refl).
  - intros s1 s2 [<-|[<-|[]]] [<-|[<-|[]]] H1 H2;
      try reflexivity; discriminate.
  - simpl. auto.
  - reflexivity.
Defined.

Lemma getSceneStatus_overrun_with_match_witness :
  scenes_response sample_method sample_scene
    (Response 200 {| count := 5; results := results requested_data |}) =
  Ok {| arg_err := VNull; arg_status := VStr REQUESTED;
        arg_mapID := VNull; arg_sceneID := sample_scene |}.
Proof.
  apply (getSceneStatus_overrun_with_match sample_method
           {| count := 5; results := results requested_data |} sample_scene
           (entry "trueColor" false VNull)).
  - simpl. lia.
  - simpl. auto.
  - reflexivity.
Defined.

Lemma callbacks_agree_witness :
  searchResultInner sample_method sample_email sample_scene
    {| arg_err := VNull; arg_status := VStr REQUESTED;
       arg_mapID := VNull; arg_sceneID := sample_scene |} initial_state =
  statusCallback sample_method sample_email
    {| arg_err := VNull; arg_status := VStr REQUESTED;
       arg_mapID := VNull; arg_sceneID := sample_scene |} initial_state.
Proof.
  apply (callbacks_agree sample_method sample_email sample_scene
           (Response 200 requested_data) _ initial_state eq_refl).
  reflexivity.
Defined.
